(** * Kiosk IV tap reader (src/runner.py): a shallow embedding

    The development follows the layout of [runner.py]:
    - Python [str] helpers used by the identifier normaliser
      ([strip], [split], [join], [lower]);
    - the tag-line regular expression [BYTE_STRING_RE] and [re.match];
    - [RampThread] and [LedsManager] (LED colour ramps);
    - [TapManager] (tap-on / tap-off state machine) and one iteration of
      the loop of [main].

    Conventions.  A Python [str] is a [string] whose characters are the code
    points below 256.  Integers are [Z].  Clock readings, durations and the
    intermediate values of the easing curve are rationals ([Q]): the rounding
    of IEEE doubles is not modelled, comparisons and the [ZeroDivisionError]
    of a division by zero are.  Effects (log lines, LED writes, HTTP posts,
    error reports, timers) are recorded in an event trace; whatever the
    program reads from its environment (the clock, the stop flag, the outcome
    of the HTTP request) is an explicit input. *)

From Stdlib Require Import String Ascii List Bool ZArith NArith QArith Lia Lqa.
From stdpp Require Import base list.
Import ListNotations.

Local Open Scope string_scope.
Local Open Scope list_scope.

(** ** Python string primitives *)

Module Py.

(** [c.isspace()] for a code point below 256. *)
Definition isspace (c : ascii) : bool :=
  let n := N_of_ascii c in
  ((9 <=? n) && (n <=? 13) || (28 <=? n) && (n <=? 32)
   || (n =? 133) || (n =? 160))%N.

(** [s.lstrip()] *)
Fixpoint lstrip (s : string) : string :=
  match s with
  | String c s' => if isspace c then lstrip s' else s
  | EmptyString => EmptyString
  end.

(** [s.rstrip()] *)
Fixpoint rstrip (s : string) : string :=
  match s with
  | String c s' =>
      match rstrip s' with
      | EmptyString => if isspace c then EmptyString else String c EmptyString
      | r => String c r
      end
  | EmptyString => EmptyString
  end.

(** [s.strip()] *)
Definition strip (s : string) : string := rstrip (lstrip s).

(** [s.split(sep)] for a one-character separator: never the empty list. *)
Fixpoint split (sep : ascii) (s : string) : list string :=
  match s with
  | EmptyString => [EmptyString]
  | String c s' =>
      if Ascii.eqb c sep then EmptyString :: split sep s'
      else match split sep s' with
           | g :: gs => String c g :: gs
           | [] => [String c EmptyString]
           end
  end.

(** A character that is not whitespace. *)
Definition no_space (c : ascii) : bool := negb (isspace c).

(** A character other than the separator. *)
Definition not_sep (sep : ascii) (c : ascii) : bool := negb (Ascii.eqb c sep).

(** [sep.join(l)] *)
Definition join (sep : string) (l : list string) : string := String.concat sep l.

(** [l[1:]] *)
Definition slice_from_1 {A} (l : list A) : list A := List.tl l.

(** An uppercase ASCII letter. *)
Definition is_ascii_upper (c : ascii) : bool :=
  let n := N_of_ascii c in ((65 <=? n) && (n <=? 90))%N.

(** [c.lower()] for a code point below 256. *)
Definition lower_char (c : ascii) : ascii :=
  let n := N_of_ascii c in
  if ((65 <=? n) && (n <=? 90)
      || (192 <=? n) && (n <=? 222) && negb (n =? 215))%N
  then ascii_of_N (n + 32) else c.

(** [s.lower()] on a string of code points below 256, where the
    lowercase form of a string is that of its characters one by one.  (On
    other code points [str.lower()] also looks at the context of a
    character, as for a final sigma: such strings are outside this model.) *)
Fixpoint lower (s : string) : string :=
  match s with
  | EmptyString => EmptyString
  | String c s' => String (lower_char c) (lower s')
  end.

End Py.

(** ** The identifier normaliser *)

(** [byte_string_to_lens_id(byte_string)], the module-level function. *)
Definition byte_string_to_lens_id (byte_string : string) : string :=
  Py.lower (Py.join "" (Py.slice_from_1 (Py.split ":" (Py.strip byte_string)))).

(** ** Regular expressions and [re.match]

    [re.match(p, s)] succeeds when some prefix of [s] belongs to the language
    of [p]: the pattern is anchored at the start of [s] only, and Python's
    backtracking search explores every way to match.  The matcher below
    decides that with Brzozowski derivatives; [Re.lang] is the language. *)

Module Re.

Inductive regex : Type :=
| Void
| Eps
| Class (p : ascii -> bool)
| Cat (r1 r2 : regex)
| Alt (r1 r2 : regex)
| Star (r : regex).

(** [r?] *)
Definition Opt (r : regex) : regex := Alt r Eps.

(** [r+] *)
Definition Plus (r : regex) : regex := Cat r (Star r).

(** [r{n}] *)
Fixpoint Repeat (n : nat) (r : regex) : regex :=
  match n with
  | O => Eps
  | S n' => Cat r (Repeat n' r)
  end.

Inductive lang : regex -> string -> Prop :=
| LEps : lang Eps ""
| LClass p c : p c = true -> lang (Class p) (String c "")
| LCat r1 r2 s1 s2 : lang r1 s1 -> lang r2 s2 -> lang (Cat r1 r2) (s1 ++ s2)
| LAltL r1 r2 s : lang r1 s -> lang (Alt r1 r2) s
| LAltR r1 r2 s : lang r2 s -> lang (Alt r1 r2) s
| LStarNil r : lang (Star r) ""
| LStarApp r s1 s2 : lang r s1 -> lang (Star r) s2 -> lang (Star r) (s1 ++ s2).

Fixpoint nullable (r : regex) : bool :=
  match r with
  | Void => false
  | Eps => true
  | Class _ => false
  | Cat r1 r2 => nullable r1 && nullable r2
  | Alt r1 r2 => nullable r1 || nullable r2
  | Star _ => true
  end.

Fixpoint deriv (c : ascii) (r : regex) : regex :=
  match r with
  | Void => Void
  | Eps => Void
  | Class p => if p c then Eps else Void
  | Cat r1 r2 =>
      if nullable r1 then Alt (Cat (deriv c r1) r2) (deriv c r2)
      else Cat (deriv c r1) r2
  | Alt r1 r2 => Alt (deriv c r1) (deriv c r2)
  | Star r1 => Cat (deriv c r1) (Star r1)
  end.

(** [re.match(r, s) is not None] *)
Fixpoint re_match (r : regex) (s : string) : bool :=
  nullable r ||
  match s with
  | EmptyString => false
  | String c s' => re_match (deriv c r) s'
  end.

End Re.

(** [[0-9a-fA-F]] *)
Definition is_hex_digit (c : ascii) : bool :=
  let n := N_of_ascii c in
  ((48 <=? n) && (n <=? 57) || (97 <=? n) && (n <=? 102)
   || (65 <=? n) && (n <=? 70))%N.

(** [BYTE_STRING_RE = r'([0-9a-fA-F]{2}:?)+'] *)
Definition BYTE_STRING_RE : Re.regex :=
  Re.Plus (Re.Cat (Re.Repeat 2 (Re.Class is_hex_digit))
                  (Re.Opt (Re.Class (Ascii.eqb ":")))).

(** The first two characters are hexadecimal digits. *)
Definition starts_with_hex_pair (s : string) : bool :=
  match s with
  | String a (String b _) => is_hex_digit a && is_hex_digit b
  | _ => false
  end.

(** ** What the specification calls a tag-identifier line

    These two predicates follow the words of the specification, not the
    code: a line made of two-digit hexadecimal groups separated by colons
    (surrounding whitespace apart), and a canonical identifier (lowercase
    hexadecimal digits, no separator). *)

Definition is_hex_pair (g : string) : bool :=
  match g with
  | String a (String b EmptyString) => is_hex_digit a && is_hex_digit b
  | _ => false
  end.

Definition spec_colon_hex_line (raw : string) : bool :=
  forallb is_hex_pair (Py.split ":" (Py.strip raw)).

Definition is_lower_hex_digit (c : ascii) : bool :=
  let n := N_of_ascii c in
  ((48 <=? n) && (n <=? 57) || (97 <=? n) && (n <=? 102))%N.

Fixpoint all_chars (p : ascii -> bool) (s : string) : bool :=
  match s with
  | EmptyString => true
  | String c s' => p c && all_chars p s'
  end.

Definition spec_canonical_identifier (s : string) : bool :=
  negb (String.eqb s "") && all_chars is_lower_hex_digit s.

(** ** Exceptions, results, configuration *)

(** The exceptions the program can meet.  [RequestsConnectionError] stands
    for [requests.exceptions.ConnectionError] and its subclasses, the class
    named by the [except] clause of [send_tap]; [OtherException] is any
    exception outside that class. *)
Inductive exn : Type :=
| ZeroDivisionError
| RequestsConnectionError (msg : string)
| OtherException (name msg : string).


Inductive result (A : Type) : Type :=
| Ret (a : A)
| Raise (e : exn).
Arguments Ret {A} a.
Arguments Raise {A} e.

(** A colour [[r, g, b]]. *)
Definition color : Type := (Z * Z * Z)%type.

(** The constants [runner.py] reads from the environment and from [utils]
    when it is loaded; they do not change afterwards.  [has_leds] is
    [board and dotstar]. *)
Record Config : Type := {
  XOS_URL : string;
  AUTH_TOKEN : string;
  LABEL : option string;
  TAP_OFF_TIMEOUT : Q;
  READER_MODEL : option string;
  READER_NAME : string;
  MAC_ADDRESS : string;
  IP_ADDRESS : string;
  LEDS_COLOUR_DEFAULT : color;
  LEDS_COLOUR_SUCCESS : color;
  LEDS_COLOUR_FAILED : color;
  LEDS_DEFAULT_BRIGHTNESS : Q;
  has_leds : bool
}.

(** ** RampThread *)

Module RampThread.

Record t : Type := {
  current_color : color;
  target_color : color;
  duration_s : Q
}.

(** What the thread sends to the LED strip or prints. *)
Inductive output : Type :=
| PrintRamping (from to : color)
| PrintCancelled
| LedsFill (c : color) (brightness : Q)
| PrintSettingLeds (c : color).

(** How far a thread got on the observations it was given. *)
Inductive status : Type :=
| Running
| Cancelled
| Completed
| Died (e : exn).

(** [ease(t, b, c, d)]: Penner's easeInCubic.  [t / d] raises
    [ZeroDivisionError] when [d] is zero. *)
Definition ease (t b c d : Q) : result Q :=
  if Qeq_bool d 0 then Raise ZeroDivisionError
  else let t := (t / d)%Q in
       let r := (c * t * t * t + b)%Q in
       Ret r.

(** [int(x)]: truncation towards zero. *)
Definition int (x : Q) : Z := Z.quot (Qnum x) (Zpos (Qden x)).

(** [set_leds(color)] *)
Definition set_leds (cfg : Config) (c : color) : output :=
  if has_leds cfg then LedsFill c (LEDS_DEFAULT_BRIGHTNESS cfg)
  else PrintSettingLeds c.

(** [for i in range(3): current_color[i] = int(ease(t, start_color[i], diff[i], duration_s))].
    [ease] fails on the first channel or on none, so a failure leaves
    [current_color] untouched. *)
Definition interpolate (t : Q) (start_color diff : color) (d : Q) : result color :=
  let '(s0, s1, s2) := start_color in
  let '(d0, d1, d2) := diff in
  match ease t (inject_Z s0) (inject_Z d0) d with
  | Raise e => Raise e
  | Ret r0 =>
      match ease t (inject_Z s1) (inject_Z d1) d with
      | Raise e => Raise e
      | Ret r1 =>
          match ease t (inject_Z s2) (inject_Z d2) d with
          | Raise e => Raise e
          | Ret r2 => Ret (int r0, int r1, int r2)
          end
      end
  end.

(** The [while True] loop of [run].  One element of [obs] is read by one
    iteration: the value of [time()] and that of [stopped()].  [cur] is the
    content of the shared list [current_color].  The result is the status,
    the final content of [current_color] and the outputs, oldest first;
    [Running] means that the observations ran out before the loop ended. *)
Fixpoint run_loop (cfg : Config) (start_color diff target : color) (d t0 : Q)
    (cur : color) (obs : list (Q * bool)) : status * color * list output :=
  match obs with
  | [] => (Running, cur, [])
  | (now, stopped) :: obs' =>
      let t := (now - t0)%Q in
      if stopped then (Cancelled, cur, [PrintCancelled])
      else if Qle_bool d t then (Completed, cur, [set_leds cfg target])
      else match interpolate t start_color diff d with
           | Raise e => (Died e, cur, [])
           | Ret cur' =>
               let '(st, fin, out) :=
                 run_loop cfg start_color diff target d t0 cur' obs' in
               (st, fin, set_leds cfg cur' :: out)
           end
  end.

(** [run()]: [t0] is the first reading of the clock. *)
Definition run (cfg : Config) (th : t) (t0 : Q) (obs : list (Q * bool))
    : status * color * list output :=
  let start_color := current_color th in
  let '(tr, tg, tb) := target_color th in
  let '(sr, sg, sb) := start_color in
  let diff := (tr - sr, tg - sg, tb - sb)%Z in
  let '(st, fin, out) :=
    run_loop cfg start_color diff (target_color th) (duration_s th) t0
             (current_color th) obs in
  (st, fin, PrintRamping (current_color th) (target_color th) :: out).

(** The colours a run put on the LEDs (or printed in their place). *)
Definition written_color (o : output) : option color :=
  match o with
  | LedsFill c _ => Some c
  | PrintSettingLeds c => Some c
  | _ => None
  end.

Definition colors_written (out : list output) : list color :=
  omap written_color out.

(** [x] lies between [a] and [b], whichever is the larger. *)
Definition between (a b x : Z) : Prop :=
  (a <= x <= b)%Z \/ (b <= x <= a)%Z.

(** Each channel of [c] lies between the channels of [c1] and [c2]. *)
Definition color_between (c1 c2 c : color) : Prop :=
  let '(r1, g1, b1) := c1 in
  let '(r2, g2, b2) := c2 in
  let '(r, g, b) := c in
  between r1 r2 r /\ between g1 g2 g /\ between b1 b2 b.

End RampThread.

(** ** Events of the main thread *)

(** The JSON body of the notification. *)
Record payload : Type := {
  uid : option string;
  tap_datetime : string;
  label : option string;
  mac_address : string;
  reader_ip : string;
  reader_model : option string;
  reader_name : string
}.

Inductive event : Type :=
| EvLog (args : list (option string))
| EvLogPostFailed (url : string) (params : payload) (e : exn)
| EvRampStop
| EvRampJoin
| EvRampStart (th : RampThread.t)
| EvSleep (seconds : Q)
| EvPost (url : string) (params : payload) (authorization : string)
| EvSentryMessage (text : string)
| EvSentryException (e : exn)
| EvTimerCancel (h : nat)
| EvTimerStart (h : nat) (interval : Q).

(** ** LedsManager *)

Module LedsManager.

(** [thread] is the last thread started.  [current_color] is the content,
    when a method of the manager is called, of the one list object that the
    manager and all its threads share.  The thread that is running writes
    into that list: between two calls its content changes as the thread
    goes on ([RampThread.run] gives the content it leaves), which a state
    of the manager carried from one call to the next does not follow.  No
    statement below about several calls depends on that content, except for
    [failed], which takes the progress of its first thread as an input. *)
Record t : Type := {
  thread : option RampThread.t;
  current_color : color
}.

(** [ramp(target_color, duration_s)].  [self.current_color = self.thread.current_color]
    rebinds the name to the list it already denotes. *)
Definition ramp (lm : t) (target : color) (duration : Q) : t * list event :=
  let stop :=
    match thread lm with
    | Some _ => [EvRampStop; EvRampJoin]
    | None => []
    end in
  let th := {| RampThread.current_color := current_color lm;
               RampThread.target_color := target;
               RampThread.duration_s := duration |} in
  ({| thread := Some th; current_color := current_color lm |},
   stop ++ [EvRampStart th]).

Definition fill_default (cfg : Config) (lm : t) : t * list event :=
  ramp lm (LEDS_COLOUR_DEFAULT cfg) 1.

Definition success_on (cfg : Config) (lm : t) : t * list event :=
  ramp lm (LEDS_COLOUR_SUCCESS cfg) (6 # 10).

Definition success_off (cfg : Config) (lm : t) : t * list event :=
  ramp lm (LEDS_COLOUR_DEFAULT cfg) (6 # 10).

(** The manager once its thread, which read [t0] and then [obs] until it
    ended, has left its last colour in the shared list. *)
Definition thread_ended (cfg : Config) (lm : t) (t0 : Q) (obs : list (Q * bool))
    : t :=
  match thread lm with
  | Some th =>
      {| thread := Some th;
         current_color := snd (fst (RampThread.run cfg th t0 obs)) |}
  | None => lm
  end.

(** [failed()].  The thread started by the first [ramp] runs during
    [sleep(1.0)] and until the second [ramp] has stopped and joined it:
    [t0] and [obs] are the readings of that thread up to its end, and the
    second thread is given the shared list as the first one leaves it. *)
Definition failed (cfg : Config) (lm : t) (t0 : Q) (obs : list (Q * bool))
    : t * list event :=
  let '(lm1, e1) := ramp lm (LEDS_COLOUR_FAILED cfg) (6 # 10) in
  let '(lm2, e2) :=
    ramp (thread_ended cfg lm1 t0 obs) (LEDS_COLOUR_DEFAULT cfg) (6 # 10) in
  (lm2, e1 ++ [EvSleep 1] ++ e2).

(** [LedsManager()] *)
Definition init (cfg : Config) : t * list event :=
  fill_default cfg {| thread := None; current_color := (0, 0, 0)%Z |}.

End LedsManager.

(** ** TapManager *)

Module TapManager.

(** A [threading.Timer]: pending from [start()] until it is cancelled or
    has run its function; [is_alive()] holds while it is pending. *)
Inductive timer_status : Type :=
| Pending
| TimerCancelled
| Fired.

(** [timers] is the store of all the [Timer] objects created so far;
    [tap_off_timer] is a handle into it ([None] before the first line). *)
Record t : Type := {
  last_id : option string;
  tap_off_timer : option nat;
  timers : list timer_status;
  leds : LedsManager.t
}.

(** What one call reads from outside: the clock and the fate of the HTTP
    request. *)
Inductive post_outcome : Type :=
| Response (status_code : Z) (text : string)
| PostRaises (e : exn).

Record world : Type := {
  now_iso : string;
  post_result : post_outcome
}.

(** The outcomes that [send_tap] deals with itself: a response, or an
    exception of the class its [except] clause names. *)
Definition handled (o : post_outcome) : bool :=
  match o with
  | Response _ _ => true
  | PostRaises (RequestsConnectionError _) => true
  | PostRaises _ => false
  end.

(** State, trace and exceptions. *)
Definition M (A : Type) : Type := t -> result A * t * list event.

Definition ret {A} (a : A) : M A := fun s => (Ret a, s, []).

Definition bind {A B} (m : M A) (k : A -> M B) : M B :=
  fun s =>
    match m s with
    | (Ret a, s1, tr1) =>
        let '(r, s2, tr2) := k a s1 in (r, s2, tr1 ++ tr2)
    | (Raise e, s1, tr1) => (Raise e, s1, tr1)
    end.

Definition raise {A} (e : exn) : M A := fun s => (Raise e, s, []).
Definition get : M t := fun s => (Ret s, s, []).
Definition emit (ev : event) : M unit := fun s => (Ret tt, s, [ev]).

Notation "x <- m ;; k" := (bind m (fun x => k))
  (at level 63, m at next level, right associativity).
Notation "m ;;; k" := (bind m (fun _ => k))
  (at level 63, right associativity).

(** Assignments to the attributes of [self]. *)
Definition upd_last_id (v : option string) (s : t) : t :=
  {| last_id := v; tap_off_timer := tap_off_timer s;
     timers := timers s; leds := leds s |}.

Definition upd_tap_off_timer (v : option nat) (s : t) : t :=
  {| last_id := last_id s; tap_off_timer := v;
     timers := timers s; leds := leds s |}.

Definition upd_timers (v : list timer_status) (s : t) : t :=
  {| last_id := last_id s; tap_off_timer := tap_off_timer s;
     timers := v; leds := leds s |}.

Definition upd_leds (v : LedsManager.t) (s : t) : t :=
  {| last_id := last_id s; tap_off_timer := tap_off_timer s;
     timers := timers s; leds := v |}.

Definition modify (f : t -> t) : M unit := fun s => (Ret tt, f s, []).

Definition set_last_id (v : option string) : M unit := modify (upd_last_id v).
Definition set_tap_off_timer (v : option nat) : M unit := modify (upd_tap_off_timer v).
Definition set_timers (v : list timer_status) : M unit := modify (upd_timers v).

(** Run a method of [self.leds]. *)
Definition with_leds (f : LedsManager.t -> LedsManager.t * list event) : M unit :=
  fun s => let '(lm, tr) := f (leds s) in (Ret tt, upd_leds lm s, tr).

(** [timer.is_alive()] *)
Definition is_alive (s : t) (h : nat) : bool :=
  match timers s !! h with
  | Some Pending => true
  | _ => false
  end.

(** The handle, if any, points into the store. *)
Definition handle_valid (s : t) : bool :=
  match tap_off_timer s with
  | Some h => (h <? length (timers s))%nat
  | None => true
  end.

(** The store after [timer.cancel()]: no effect on a timer that is no longer
    pending. *)
Definition cancelled (h : nat) (s : t) : t :=
  if is_alive s h then upd_timers (<[h := TimerCancelled]> (timers s)) s else s.

(** [timer.cancel()] *)
Definition cancel (h : nat) : M unit :=
  emit (EvTimerCancel h) ;;; modify (cancelled h).

(** [send_tap(id)] *)
Definition send_tap (cfg : Config) (w : world) (id : option string) : M Z :=
  let params :=
    {| uid := id;
       tap_datetime := now_iso w;
       label := LABEL cfg;
       mac_address := MAC_ADDRESS cfg;
       reader_ip := IP_ADDRESS cfg;
       reader_model := READER_MODEL cfg;
       reader_name := READER_NAME cfg |} in
  let headers := ("Token " ++ AUTH_TOKEN cfg)%string in
  emit (EvPost (XOS_URL cfg) params headers) ;;;
  match post_result w with
  | Response status_code text =>
      if (status_code =? 201)%Z then
        emit (EvLog [Some text]) ;;; ret 0%Z
      else
        emit (EvLog [Some text]) ;;;
        emit (EvSentryMessage text) ;;;
        ret 1%Z
  | PostRaises (RequestsConnectionError msg) =>
      let e := RequestsConnectionError msg in
      emit (EvLogPostFailed (XOS_URL cfg) params e) ;;;
      emit (EvSentryException e) ;;;
      ret 1%Z
  | PostRaises e => raise e
  end.

(** [tap_on()] *)
Definition tap_on (cfg : Config) (w : world) : M unit :=
  s <- get ;;
  emit (EvLog [Some " Tap On: "; last_id s]) ;;;
  with_leds (LedsManager.success_on cfg) ;;;
  _ <- send_tap cfg w (last_id s) ;;
  ret tt.

(** [tap_off()] *)
Definition tap_off (cfg : Config) : M unit :=
  s <- get ;;
  emit (EvLog [Some "Tap Off: "; last_id s]) ;;;
  set_last_id None ;;;
  with_leds (LedsManager.success_off cfg).

(** [_reset_tap_off_timer()] *)
Definition _reset_tap_off_timer (cfg : Config) : M unit :=
  s <- get ;;
  match tap_off_timer s with
  | Some h => cancel h ;;; set_tap_off_timer None
  | None => ret tt
  end ;;;
  s <- get ;;
  let h := length (timers s) in
  set_timers (timers s ++ [Pending]) ;;;
  set_tap_off_timer (Some h) ;;;
  emit (EvTimerStart h (TAP_OFF_TIMEOUT cfg)).

(** [_byte_string_to_lens_id(byte_string)], the method. *)
Definition _byte_string_to_lens_id (self : t) (byte_string : string) : string :=
  Py.lower (Py.join "" (Py.slice_from_1 (Py.split ":" (Py.strip byte_string)))).

(** [id != self.last_id] *)
Definition id_differs (id : string) (last : option string) : bool :=
  match last with
  | Some prev => negb (String.eqb id prev)
  | None => true
  end.

(** [read_line(line)] *)
Definition read_line (cfg : Config) (w : world) (line : string) : M unit :=
  s <- get ;;
  let id := _byte_string_to_lens_id s line in
  (if id_differs id (last_id s) then
     match tap_off_timer s with
     | Some h =>
         if is_alive s h then cancel h ;;; tap_off cfg else ret tt
     | None => ret tt
     end ;;;
     set_last_id (Some id) ;;;
     tap_on cfg w
   else ret tt) ;;;
  _reset_tap_off_timer cfg.

(** The timer thread when the interval of timer [h] has elapsed: a timer
    that is still pending calls [tap_off] and is finished. *)
Definition timer_fires (cfg : Config) (h : nat) : M unit :=
  s <- get ;;
  if is_alive s h then
    tap_off cfg ;;;
    s' <- get ;;
    set_timers (<[h := Fired]> (timers s'))
  else ret tt.

(** [TapManager()] *)
Definition init (cfg : Config) : t * list event :=
  let '(lm, tr) := LedsManager.init cfg in
  ({| last_id := None; tap_off_timer := None; timers := []; leds := lm |}, tr).

(** One iteration of the [while True] loop of [main], from the decoded
    line on ([main_iteration] below starts from the bytes). *)
Definition main_step (cfg : Config) (w : world) (line : string) : M unit :=
  if Re.re_match BYTE_STRING_RE line then read_line cfg w line else ret tt.

(** The loop of [main] over a finite run of lines; an exception that leaves
    [read_line] ends it. *)
Fixpoint main_loop (cfg : Config) (input : list (world * string)) : M unit :=
  match input with
  | [] => ret tt
  | (w, line) :: rest => main_step cfg w line ;;; main_loop cfg rest
  end.

(** [popen.stdout.readline().decode("utf-8")]: the line, or
    [UnicodeDecodeError] when the bytes read are not UTF-8. *)
Inductive read_result : Type :=
| Decoded (line : string)
| NotUtf8 (reason : string).

(** One iteration of the loop of [main], from the bytes read on: nothing
    in [main] catches the error of [decode]. *)
Definition main_iteration (cfg : Config) (w : world) (r : read_result) : M unit :=
  match r with
  | Decoded line => main_step cfg w line
  | NotUtf8 reason => raise (OtherException "UnicodeDecodeError" reason)
  end.

(** The loop of [main] over a finite run of reads. *)
Fixpoint read_loop (cfg : Config) (input : list (world * read_result)) : M unit :=
  match input with
  | [] => ret tt
  | (w, r) :: rest => main_iteration cfg w r ;;; read_loop cfg rest
  end.

(** The three components of what a computation returns. *)
Definition result_of {A} (x : result A * t * list event) : result A := fst (fst x).
Definition state_of {A} (x : result A * t * list event) : t := snd (fst x).
Definition trace_of {A} (x : result A * t * list event) : list event := snd x.

(** Projections of a trace. *)
Definition post_uid (ev : event) : option (option string) :=
  match ev with EvPost _ params _ => Some (uid params) | _ => None end.

(** The identifiers notified by a trace, in order. *)
Definition notified (tr : list event) : list (option string) := omap post_uid tr.

Definition is_led (ev : event) : bool :=
  match ev with
  | EvRampStop | EvRampJoin | EvRampStart _ | EvSleep _ => true
  | _ => false
  end.

Definition ramp_target (ev : event) : option color :=
  match ev with
  | EvRampStart th => Some (RampThread.target_color th)
  | _ => None
  end.

(** The target colours of the ramps started by a trace, in order. *)
Definition ramps (tr : list event) : list color := omap ramp_target tr.

Definition is_timer (ev : event) : bool :=
  match ev with EvTimerCancel _ | EvTimerStart _ _ => true | _ => false end.

(** The tap-on and tap-off actions of a trace, in order: each action starts
    with its log line. *)
Inductive action : Type :=
| TapOn (id : option string)
| TapOff (id : option string).

Definition action_of (ev : event) : option action :=
  match ev with
  | EvLog [Some tag; id] =>
      if String.eqb tag " Tap On: " then Some (TapOn id)
      else if String.eqb tag "Tap Off: " then Some (TapOff id)
      else None
  | _ => None
  end.

Definition actions (tr : list event) : list action := omap action_of tr.

End TapManager.

(** ** The main thread and the timer threads, in serial schedules

    [main] feeds lines to the manager; each [Timer] started by
    [_reset_tap_off_timer] runs [tap_off] on its own thread when its
    interval elapses.  The code has no lock.  This module describes the
    serial schedules only: a timer that is cancelled before the end of its
    wait never calls back, and a timer that reaches the end of its wait
    runs [tap_off] and ends before the next line is read, so that no call
    of [read_line] overlaps a timer thread that has finished waiting.  One
    input is then one line read by the loop of [main], or the expiry of one
    timer.  Schedules in which a line is read while such a timer thread is
    still alive are not described. *)

Module System.
Import TapManager.

Inductive input : Type :=
| Line (w : world) (line : string)
| TimerExpires (h : nat).

Definition step (cfg : Config) (i : input) : M unit :=
  match i with
  | Line w line => main_step cfg w line
  | TimerExpires h => timer_fires cfg h
  end.

(** A serial schedule, input after input; an exception that leaves
    [main_step] ends it. *)
Fixpoint serial_run (cfg : Config) (inputs : list input) : M unit :=
  match inputs with
  | [] => ret tt
  | i :: rest => step cfg i ;;; serial_run cfg rest
  end.

(** The request of a line, if any, has an outcome that [send_tap] handles. *)
Definition input_handled (i : input) : bool :=
  match i with
  | Line w _ => handled (post_result w)
  | TimerExpires _ => true
  end.

(** The manager's timer is pending. *)
Definition session_armed (s : t) : bool :=
  match tap_off_timer s with
  | Some h => is_alive s h
  | None => false
  end.

(** The manager's timer cancelled, if there is one. *)
Definition cancel_current (s : t) : t :=
  match tap_off_timer s with
  | Some h => cancelled h s
  | None => s
  end.

(** The invariant of the states the system goes through: the only timer
    that can be pending is the manager's, it is pending exactly when a tag
    is present, and the handle points into the store. *)
Definition consistent (s : t) : Prop :=
  (forall h, is_alive s h = true -> tap_off_timer s = Some h)
  /\ session_armed s = match last_id s with Some _ => true | None => false end
  /\ handle_valid s = true.

(** Reading a list of tap actions as sessions: a tap-on opens the session
    of its identifier when none is open, a tap-off closes the session that
    is open for its identifier.  The result is the session left open, or
    [None] when the list is not of that form. *)
Fixpoint replay (open : option string) (acts : list action)
    : option (option string) :=
  match acts with
  | [] => Some open
  | TapOn (Some id) :: rest =>
      match open with
      | None => replay (Some id) rest
      | Some _ => None
      end
  | TapOff (Some id) :: rest =>
      match open with
      | Some id' => if String.eqb id id' then replay None rest else None
      | None => None
      end
  | _ => None
  end.

(** The identifiers of the tap-ons of a list of actions. *)
Definition tap_on_ids (acts : list action) : list (option string) :=
  omap (fun a => match a with TapOn id => Some id | TapOff _ => None end) acts.

(** The LED calls of a trace, read as a sequence of ramps: after the first
    one, a ramp thread is started only after the one before it has been
    stopped and joined. *)
Fixpoint serial (leds_events : list event) : bool :=
  match leds_events with
  | [] => true
  | EvRampStop :: EvRampJoin :: EvRampStart _ :: rest => serial rest
  | _ => false
  end.

(** The ramp threads started by a trace, in order. *)
Definition ramp_threads (tr : list event) : list RampThread.t :=
  omap (fun ev => match ev with EvRampStart th => Some th | _ => None end) tr.

(** A ramp of 0.6 s to the success colour or to the default colour. *)
Definition session_ramp (cfg : Config) (th : RampThread.t) : Prop :=
  (RampThread.target_color th = LEDS_COLOUR_SUCCESS cfg
   \/ RampThread.target_color th = LEDS_COLOUR_DEFAULT cfg)
  /\ RampThread.duration_s th = 6 # 10.

(** The LED side of a trace: serial, and made of session ramps. *)
Definition led_ok (cfg : Config) (tr : list event) : Prop :=
  serial (List.filter is_led tr) = true
  /\ Forall (session_ramp cfg) (ramp_threads tr).

(** The reports to Sentry in a trace. *)
Definition is_sentry (ev : event) : bool :=
  match ev with
  | EvSentryMessage _ | EvSentryException _ => true
  | _ => false
  end.

Definition sentry_reports (tr : list event) : nat :=
  length (List.filter is_sentry tr).

End System.

(** ** A concrete configuration

    The defaults of [runner.py], for the examples below. *)

Definition default_config : Config := {|
  XOS_URL := "http://localhost:8888";
  AUTH_TOKEN := "";
  LABEL := None;
  TAP_OFF_TIMEOUT := 5 # 10;
  READER_MODEL := None;
  READER_NAME := "nfc-17";
  MAC_ADDRESS := "b8:27:eb:00:00:01";
  IP_ADDRESS := "192.168.1.17";
  LEDS_COLOUR_DEFAULT := (130, 127, 127)%Z;
  LEDS_COLOUR_SUCCESS := (0, 255, 0)%Z;
  LEDS_COLOUR_FAILED := (255, 0, 0)%Z;
  LEDS_DEFAULT_BRIGHTNESS := 1;
  has_leds := false
|}.

Definition delivered : TapManager.world :=
  {| TapManager.now_iso := "2021-03-01T10:00:00+11:00";
     TapManager.post_result := TapManager.Response 201 "created" |}.

Definition rejected : TapManager.world :=
  {| TapManager.now_iso := "2021-03-01T10:00:00+11:00";
     TapManager.post_result := TapManager.Response 400 "bad request" |}.

Definition unreachable : TapManager.world :=
  {| TapManager.now_iso := "2021-03-01T10:00:00+11:00";
     TapManager.post_result :=
       TapManager.PostRaises (RequestsConnectionError "Connection refused") |}.

(** A fresh [TapManager()]. *)
Definition fresh : TapManager.t := fst (TapManager.init default_config).

(** The manager after the line ["04:AA:BB:CC"]: tag [aabbcc] is present. *)
Definition present : TapManager.t :=
  TapManager.state_of
    (TapManager.read_line default_config delivered "04:AA:BB:CC" fresh).

(** * Properties *)

(** ** Strings *)

Module PyFacts.
Import Py.

Lemma append_nil_r (s : string) : (s ++ "")%string = s.
Proof. induction s as [|c s IH]; simpl; [reflexivity | now rewrite IH]. Qed.

Lemma append_assoc (s1 s2 s3 : string) :
  ((s1 ++ s2) ++ s3)%string = (s1 ++ (s2 ++ s3))%string.
Proof. induction s1 as [|c s1 IH]; simpl; [reflexivity | now rewrite IH]. Qed.

Lemma all_chars_app (p : ascii -> bool) (s1 s2 : string) :
  all_chars p (s1 ++ s2) = all_chars p s1 && all_chars p s2.
Proof.
  induction s1 as [|c s1 IH]; simpl; [reflexivity|].
  now rewrite IH, andb_assoc.
Qed.

Lemma all_chars_impl (p q : ascii -> bool) (s : string) :
  (forall c, p c = true -> q c = true) ->
  all_chars p s = true -> all_chars q s = true.
Proof.
  intros Hpq. induction s as [|c s IH]; simpl; [reflexivity|].
  intros H. apply andb_true_iff in H as [Hc Hs].
  now rewrite (Hpq c Hc), (IH Hs).
Qed.

(** Leading whitespace goes. *)
Lemma lstrip_spaces_app (ws s : string) :
  all_chars isspace ws = true -> lstrip (ws ++ s) = lstrip s.
Proof.
  induction ws as [|c ws IH]; simpl; [reflexivity|].
  intros H. apply andb_true_iff in H as [Hc Hws].
  rewrite Hc. now apply IH.
Qed.

(** A string that does not start with whitespace is left alone. *)
Lemma lstrip_head (c : ascii) (s : string) :
  isspace c = false -> lstrip (String c s) = String c s.
Proof. intros H. simpl. now rewrite H. Qed.

Lemma rstrip_spaces (ws : string) :
  all_chars isspace ws = true -> rstrip ws = "".
Proof.
  induction ws as [|c ws IH]; simpl; [reflexivity|].
  intros H. apply andb_true_iff in H as [Hc Hws].
  now rewrite (IH Hws), Hc.
Qed.

Lemma rstrip_no_space (s : string) :
  all_chars (fun c => negb (isspace c)) s = true -> rstrip s = s.
Proof.
  induction s as [|c s IH]; simpl; [reflexivity|].
  intros H. apply andb_true_iff in H as [Hc Hs].
  rewrite (IH Hs). apply negb_true_iff in Hc.
  destruct s; [now rewrite Hc | reflexivity].
Qed.

(** Trailing whitespace goes. *)
Lemma rstrip_app_spaces (s ws : string) :
  all_chars isspace ws = true -> rstrip (s ++ ws) = rstrip s.
Proof.
  intros Hws. induction s as [|c s IH]; simpl.
  - now apply rstrip_spaces.
  - now rewrite IH.
Qed.

(** [strip] on a padded core without whitespace. *)
Lemma strip_padded (ws1 core ws2 : string) :
  all_chars isspace ws1 = true ->
  all_chars isspace ws2 = true ->
  all_chars (fun c => negb (isspace c)) core = true ->
  strip (ws1 ++ core ++ ws2) = core.
Proof.
  intros H1 H2 Hcore. unfold strip.
  rewrite lstrip_spaces_app by assumption.
  destruct core as [|c core].
  - simpl. clear H1. induction ws2 as [|d ws2 IH]; simpl; [reflexivity|].
    simpl in H2. apply andb_true_iff in H2 as [Hd Hws]. rewrite Hd. now apply IH.
  - assert (Hc : isspace c = false).
    { simpl in Hcore. apply andb_true_iff in Hcore as [Hc _].
      now apply negb_true_iff in Hc. }
    change (String c core ++ ws2)%string with (String c (core ++ ws2)).
    rewrite lstrip_head by assumption.
    change (String c (core ++ ws2)) with (String c core ++ ws2)%string.
    rewrite rstrip_app_spaces by assumption.
    now apply rstrip_no_space.
Qed.

Lemma split_not_nil (sep : ascii) (s : string) : split sep s <> [].
Proof.
  induction s as [|c s IH]; simpl; [discriminate|].
  destruct (Ascii.eqb c sep); [discriminate|].
  destruct (split sep s); [congruence | discriminate].
Qed.

(** A group without separator is one group. *)
Lemma split_group (sep : ascii) (g : string) :
  all_chars (not_sep sep) g = true -> split sep g = [g].
Proof.
  induction g as [|c g IH]; simpl; [reflexivity|].
  intros H. apply andb_true_iff in H as [Hc Hg].
  unfold not_sep in Hc. apply negb_true_iff in Hc.
  now rewrite Hc, (IH Hg).
Qed.

Lemma split_group_sep (sep : ascii) (g rest : string) :
  all_chars (not_sep sep) g = true ->
  split sep (g ++ String sep rest) = g :: split sep rest.
Proof.
  induction g as [|c g IH]; simpl.
  - intros _. now rewrite Ascii.eqb_refl.
  - intros H. apply andb_true_iff in H as [Hc Hg].
    unfold not_sep in Hc. apply negb_true_iff in Hc.
    now rewrite Hc, (IH Hg).
Qed.

(** [split] undoes [join] on groups that do not hold the separator. *)
Lemma split_join (sep : ascii) (g0 : string) (gs : list string) :
  forallb (all_chars (not_sep sep)) (g0 :: gs) = true ->
  split sep (join (String sep "") (g0 :: gs)) = g0 :: gs.
Proof.
  revert g0. induction gs as [|g1 gs IH]; intros g0 H.
  - simpl in *. apply andb_true_iff in H as [H0 _]. now apply split_group.
  - change (forallb (all_chars (not_sep sep)) (g0 :: g1 :: gs))
      with (all_chars (not_sep sep) g0
            && forallb (all_chars (not_sep sep)) (g1 :: gs)) in H.
    apply andb_true_iff in H as [H0 H1].
    change (join (String sep "") (g0 :: g1 :: gs))
      with (g0 ++ String sep (join (String sep "") (g1 :: gs)))%string.
    rewrite split_group_sep by assumption.
    now rewrite IH.
Qed.

(** [join] undoes [split]. *)
Lemma join_split (sep : ascii) (s : string) :
  join (String sep "") (split sep s) = s.
Proof.
  induction s as [|c s IH]; simpl; [reflexivity|].
  destruct (Ascii.eqb_spec c sep) as [->|Hne].
  - pose proof (split_not_nil sep s) as Hnil.
    destruct (split sep s) as [|g gs]; [congruence|].
    change (join (String sep "") ("" :: g :: gs))
      with (String sep (join (String sep "") (g :: gs))).
    now rewrite IH.
  - pose proof (split_not_nil sep s) as Hnil.
    destruct (split sep s) as [|g gs]; [congruence|].
    destruct gs as [|g' gs]; simpl in *; now rewrite IH.
Qed.

Lemma lower_app (s1 s2 : string) :
  lower (s1 ++ s2) = (lower s1 ++ lower s2)%string.
Proof. induction s1 as [|c s1 IH]; simpl; [reflexivity | now rewrite IH]. Qed.

Lemma join_cons2 (sep g g' : string) (gs : list string) :
  join sep (g :: g' :: gs) = (g ++ sep ++ join sep (g' :: gs))%string.
Proof. reflexivity. Qed.

(** Lowercasing the joined groups is joining the lowercased groups. *)
Lemma lower_join_nil (gs : list string) :
  lower (join "" gs) = join "" (map lower gs).
Proof.
  induction gs as [|g gs IH]; [reflexivity|].
  destruct gs as [|g' gs]; [reflexivity|].
  rewrite join_cons2, !lower_app, IH.
  reflexivity.
Qed.

End PyFacts.

(** ** The identifier normaliser *)

Module NormalizeFacts.
Import Py PyFacts.

Lemma hex_digit_not_space (c : ascii) :
  is_hex_digit c = true -> negb (isspace c) = true.
Proof.
  destruct c as [[] [] [] [] [] [] [] []]; vm_compute; congruence.
Qed.

Lemma hex_digit_not_colon (c : ascii) :
  is_hex_digit c = true -> not_sep ":" c = true.
Proof.
  destruct c as [[] [] [] [] [] [] [] []]; vm_compute; congruence.
Qed.

Lemma hex_pair_all_hex (g : string) :
  is_hex_pair g = true -> all_chars is_hex_digit g = true.
Proof.
  destruct g as [|a [|b [|c g]]]; simpl; try discriminate.
  intros H. apply andb_true_iff in H as [Ha Hb]. now rewrite Ha, Hb.
Qed.

Lemma forallb_impl {A} (p q : A -> bool) (l : list A) :
  (forall x, p x = true -> q x = true) ->
  forallb p l = true -> forallb q l = true.
Proof.
  intros Hpq. induction l as [|x l IH]; simpl; [reflexivity|].
  intros H. apply andb_true_iff in H as [Hx Hl].
  now rewrite (Hpq x Hx), (IH Hl).
Qed.

(** Joining groups keeps a property that the groups and the separator have. *)
Lemma all_chars_join (p : ascii -> bool) (sep : string) (gs : list string) :
  all_chars p sep = true ->
  forallb (all_chars p) gs = true ->
  all_chars p (join sep gs) = true.
Proof.
  intros Hsep. induction gs as [|g gs IH]; [reflexivity|].
  intros H. simpl in H. apply andb_true_iff in H as [Hg Hgs].
  destruct gs as [|g' gs]; [exact Hg|].
  rewrite join_cons2, !all_chars_app, Hg, Hsep, (IH Hgs). reflexivity.
Qed.

(** The shape of a valid line: whitespace, hexadecimal pairs separated by
    colons, whitespace.  The normaliser returns the pairs after the first,
    lowercased and joined. *)
Lemma normalize_padded_groups (ws1 ws2 g0 : string) (gs : list string) :
  all_chars isspace ws1 = true ->
  all_chars isspace ws2 = true ->
  forallb is_hex_pair (g0 :: gs) = true ->
  byte_string_to_lens_id (ws1 ++ join ":" (g0 :: gs) ++ ws2)
  = join "" (map lower gs).
Proof.
  intros H1 H2 Hgs. unfold byte_string_to_lens_id.
  assert (Hhex : forallb (all_chars is_hex_digit) (g0 :: gs) = true).
  { revert Hgs. apply forallb_impl, hex_pair_all_hex. }
  rewrite strip_padded; try assumption.
  - rewrite split_join.
    + unfold slice_from_1. simpl tl. apply lower_join_nil.
    + revert Hhex. apply forallb_impl. intros g.
      apply all_chars_impl, hex_digit_not_colon.
  - apply all_chars_join; [reflexivity|].
    revert Hhex. apply forallb_impl. intros g.
    apply all_chars_impl, hex_digit_not_space.
Qed.

(** Every line that the specification calls valid has that shape. *)
Lemma strip_decompose (s : string) :
  exists ws1 ws2,
    all_chars isspace ws1 = true /\ all_chars isspace ws2 = true /\
    s = (ws1 ++ strip s ++ ws2)%string.
Proof.
  assert (Hl : forall s, exists ws1,
             all_chars isspace ws1 = true /\ s = (ws1 ++ lstrip s)%string).
  { clear s. induction s as [|c s [ws [Hws Hs]]]; [now exists ""|].
    simpl. destruct (isspace c) eqn:Hc.
    - exists (String c ws). simpl. rewrite Hc, Hws. split; [reflexivity|].
      now rewrite <- Hs.
    - now exists "". }
  assert (Hr : forall s, exists ws2,
             all_chars isspace ws2 = true /\ s = (rstrip s ++ ws2)%string).
  { clear s Hl. induction s as [|c s [ws [Hws Hs]]]; [now exists ""|].
    simpl. destruct (rstrip s) as [|d r] eqn:Hrs.
    - destruct (isspace c) eqn:Hc.
      + exists (String c ws). simpl. rewrite Hc, Hws. split; [reflexivity|].
        now rewrite Hs at 1.
      + exists ws. split; [assumption|]. simpl. now rewrite Hs at 1.
    - exists ws. split; [assumption|]. simpl. now rewrite Hs at 1. }
  destruct (Hl s) as [ws1 [H1 E1]].
  destruct (Hr (lstrip s)) as [ws2 [H2 E2]].
  exists ws1, ws2. repeat split; try assumption.
  unfold strip. now rewrite <- E2.
Qed.

Lemma valid_line_shape (raw : string) :
  spec_colon_hex_line raw = true ->
  exists ws1 ws2 g0 gs,
    all_chars isspace ws1 = true /\ all_chars isspace ws2 = true /\
    forallb is_hex_pair (g0 :: gs) = true /\
    raw = (ws1 ++ join ":" (g0 :: gs) ++ ws2)%string.
Proof.
  unfold spec_colon_hex_line. intros Hv.
  destruct (strip_decompose raw) as [ws1 [ws2 [H1 [H2 E]]]].
  pose proof (split_not_nil ":" (strip raw)) as Hnil.
  pose proof (join_split ":" (strip raw)) as Hj.
  destruct (split ":" (strip raw)) as [|g0 gs]; [congruence|].
  exists ws1, ws2, g0, gs. repeat split; try assumption.
  now rewrite Hj.
Qed.

End NormalizeFacts.

(** C6. For every valid raw line (whitespace, then two-digit hexadecimal
    groups separated by colons, then whitespace) the normaliser strips the
    surrounding whitespace, drops exactly one leading group, joins the
    remaining groups and lowercases them; on ["04:04:A5:2C:F2:2A:5E:80"] it
    returns ["04a52cf22a5e80"]; the result depends on the line only, not on
    the state of the [TapManager] it is called on. *)
Theorem normalize_valid_line (self : TapManager.t) (raw : string) :
  spec_colon_hex_line raw = true ->
  (exists ws1 ws2 g0 gs,
      all_chars Py.isspace ws1 = true /\ all_chars Py.isspace ws2 = true /\
      forallb is_hex_pair (g0 :: gs) = true /\
      raw = (ws1 ++ Py.join ":" (g0 :: gs) ++ ws2)%string /\
      TapManager._byte_string_to_lens_id self raw = Py.join "" (map Py.lower gs))
  /\ TapManager._byte_string_to_lens_id self "04:04:A5:2C:F2:2A:5E:80"
     = "04a52cf22a5e80"
  /\ (forall (self' : TapManager.t) (line : string),
        TapManager._byte_string_to_lens_id self' line
        = TapManager._byte_string_to_lens_id self line).
Proof.
  intros Hv. split; [|split; reflexivity].
  destruct (NormalizeFacts.valid_line_shape raw Hv)
    as [ws1 [ws2 [g0 [gs [H1 [H2 [Hgs E]]]]]]].
  exists ws1, ws2, g0, gs. repeat split; try assumption.
  rewrite E. now apply NormalizeFacts.normalize_padded_groups.
Qed.

Lemma normalize_valid_line_witness :
  spec_colon_hex_line (" 04:AA:bB:0c" ++ String "010" "") = true
  /\ TapManager._byte_string_to_lens_id
       {| TapManager.last_id := None; TapManager.tap_off_timer := None;
          TapManager.timers := [];
          TapManager.leds := {| LedsManager.thread := None;
                                LedsManager.current_color := (0, 0, 0)%Z |} |}
       "04:04:A5:2C:F2:2A:5E:80"
     = "04a52cf22a5e80".
Proof.
  split; [reflexivity|].
  refine (proj1 (proj2 (normalize_valid_line _
                          (" 04:AA:bB:0c" ++ String "010" "") _))).
  reflexivity.
Defined.

(** C10. The module-level function and the method are the same function of
    the line. *)
Theorem byte_string_to_lens_id_same (self : TapManager.t) (byte_string : string) :
  TapManager._byte_string_to_lens_id self byte_string
  = byte_string_to_lens_id byte_string.
Proof. reflexivity. Qed.

(** ** [re.match] and the tag-line pattern *)

Module ReFacts.
Import Re PyFacts.

Lemma append_eq_nil (s1 s2 : string) :
  (s1 ++ s2)%string = "" -> s1 = "" /\ s2 = "".
Proof. destruct s1; simpl; [auto | discriminate]. Qed.

Lemma nullable_lang (r : regex) : nullable r = true <-> lang r "".
Proof.
  split.
  - induction r as [| |p|r1 IH1 r2 IH2|r1 IH1 r2 IH2|r IH]; simpl; intros H;
      try discriminate.
    + constructor.
    + apply andb_true_iff in H as [H1 H2].
      change "" with ("" ++ "")%string. constructor; auto.
    + apply orb_true_iff in H as [H|H]; [apply LAltL | apply LAltR]; auto.
    + constructor.
  - intros H. remember "" as s eqn:E. induction H; simpl; try reflexivity.
    + discriminate.
    + apply append_eq_nil in E as [-> ->].
      now rewrite IHlang1, IHlang2.
    + now rewrite IHlang.
    + rewrite IHlang by assumption. apply orb_true_r.
Qed.

Lemma deriv_sound (c : ascii) (r : regex) (s : string) :
  lang (deriv c r) s -> lang r (String c s).
Proof.
  revert s.
  induction r as [| |p|r1 IH1 r2 IH2|r1 IH1 r2 IH2|r IH]; simpl; intros s H.
  - inversion H.
  - inversion H.
  - destruct (p c) eqn:Hp; inversion H; subst. now constructor.
  - destruct (nullable r1) eqn:Hn.
    + inversion H as [| | | ? ? ? H'| ? ? ? H'| |]; subst.
      * inversion H' as [| |? ? s1 s2 Ha Hb| | | |]; subst.
        change (String c (s1 ++ s2)) with (String c s1 ++ s2)%string.
        constructor; auto.
      * change (String c s) with ("" ++ String c s)%string.
        constructor; [now apply nullable_lang | auto].
    + inversion H as [| |? ? s1 s2 Ha Hb| | | |]; subst.
      change (String c (s1 ++ s2)) with (String c s1 ++ s2)%string.
      constructor; auto.
  - inversion H; subst; [apply LAltL | apply LAltR]; auto.
  - inversion H as [| |? ? s1 s2 Ha Hb| | | |]; subst.
    change (String c (s1 ++ s2)) with (String c s1 ++ s2)%string.
    constructor; auto.
Qed.

Lemma deriv_complete (c : ascii) (r : regex) (s : string) :
  lang r (String c s) -> lang (deriv c r) s.
Proof.
  intros H. remember (String c s) as s' eqn:E. revert s E.
  induction H as [|p d Hp|r1 r2 s1 s2 H1 IH1 H2 IH2|r1 r2 s0 H0 IH0
                  |r1 r2 s0 H0 IH0|r|r s1 s2 H1 IH1 H2 IH2];
    intros s E; simpl.
  - discriminate.
  - injection E as -> <-. rewrite Hp. constructor.
  - destruct s1 as [|d s1]; simpl in E.
    + subst s2. apply nullable_lang in H1. rewrite H1.
      apply LAltR. now apply IH2.
    + injection E as -> <-.
      destruct (nullable r1); [apply LAltL|]; constructor; auto.
  - apply LAltL. auto.
  - apply LAltR. auto.
  - discriminate.
  - destruct s1 as [|d s1]; simpl in E.
    + now apply IH2.
    + injection E as -> <-. constructor; auto.
Qed.

(** [re_match r s] holds exactly when a prefix of [s] is in the language of
    [r]. *)
Theorem re_match_spec (r : regex) (s : string) :
  re_match r s = true <-> exists p q, s = (p ++ q)%string /\ lang r p.
Proof.
  revert r. induction s as [|c s IH]; intros r; simpl.
  - rewrite orb_false_r, nullable_lang. split.
    + intros H. now exists "", "".
    + intros [p [q [E H]]]. symmetry in E.
      apply append_eq_nil in E as [-> _]. exact H.
  - rewrite orb_true_iff, nullable_lang, IH. split.
    + intros [H|[p [q [E H]]]].
      * now exists "", (String c s).
      * exists (String c p), q. split; [now rewrite E|].
        now apply deriv_sound.
    + intros [p [q [E H]]]. destruct p as [|d p]; [now left|].
      right. simpl in E. injection E as <- ->.
      exists p, q. split; [reflexivity|]. now apply deriv_complete.
Qed.

(** The language of [[0-9a-fA-F]{2}:?] starts with two hexadecimal digits. *)
Lemma hex_byte_shape (s : string) :
  lang (Cat (Repeat 2 (Class is_hex_digit)) (Opt (Class (Ascii.eqb ":")))) s ->
  exists a b rest,
    s = String a (String b rest) /\
    is_hex_digit a = true /\ is_hex_digit b = true.
Proof.
  intros H.
  inversion H as [| |? ? s1 s2 H1 H2| | | |]; subst. simpl in H1.
  inversion H1 as [| |? ? u1 u2 Hu1 Hu2| | | |]; subst.
  inversion Hu1 as [|? a Ha| | | | |]; subst.
  inversion Hu2 as [| |? ? v1 v2 Hv1 Hv2| | | |]; subst.
  inversion Hv1 as [|? b Hb| | | | |]; subst.
  exists a, b, (v2 ++ s2)%string. simpl. auto.
Qed.

(** [re.match(BYTE_STRING_RE, line)] looks at the first two characters. *)
Theorem byte_string_re_match (line : string) :
  re_match BYTE_STRING_RE line = starts_with_hex_pair line.
Proof.
  destruct (starts_with_hex_pair line) eqn:Hs.
  - apply re_match_spec.
    destruct line as [|a [|b rest]]; simpl in Hs; try discriminate.
    apply andb_true_iff in Hs as [Ha Hb].
    exists (String a (String b "")), rest. split; [reflexivity|].
    unfold BYTE_STRING_RE, Plus.
    apply (LCat _ _ (String a (String b "")) ""); [|apply LStarNil].
    apply (LCat _ _ (String a (String b "")) ""); [|apply LAltR, LEps].
    apply (LCat _ _ (String a "") (String b "")); [now apply LClass|].
    apply (LCat _ _ (String b "") ""); [now apply LClass | apply LEps].
  - apply not_true_is_false. intros Hm.
    apply re_match_spec in Hm as [p [q [E H]]].
    unfold BYTE_STRING_RE, Plus in H.
    inversion H as [| |? ? s1 s2 H1 H2| | | |]; subst.
    apply hex_byte_shape in H1 as [a [b [rest [-> [Ha Hb]]]]].
    simpl in Hs. rewrite Ha, Hb in Hs. discriminate.
Qed.

End ReFacts.

Module GateFacts.
Import Py PyFacts.

Lemma split_groups_no_sep (sep : ascii) (s : string) :
  forallb (all_chars (not_sep sep)) (split sep s) = true.
Proof.
  induction s as [|c s IH]; simpl; [reflexivity|].
  destruct (Ascii.eqb c sep) eqn:Hc; simpl; [exact IH|].
  destruct (split sep s) as [|g gs]; simpl in *.
  - unfold not_sep. now rewrite Hc.
  - unfold not_sep at 1. now rewrite Hc.
Qed.

Lemma forallb_tl {A} (p : A -> bool) (l : list A) :
  forallb p l = true -> forallb p (tl l) = true.
Proof.
  destruct l as [|x l]; simpl; [auto|].
  intros H. now apply andb_true_iff in H as [_ H].
Qed.

Lemma all_chars_lower (p q : ascii -> bool) (s : string) :
  (forall c, p c = true -> q (lower_char c) = true) ->
  all_chars p s = true -> all_chars q (lower s) = true.
Proof.
  intros Hpq. induction s as [|c s IH]; simpl; [reflexivity|].
  intros H. apply andb_true_iff in H as [Hc Hs].
  now rewrite (Hpq c Hc), (IH Hs).
Qed.

Lemma lower_char_not_colon (c : ascii) :
  not_sep ":" c = true -> not_sep ":" (lower_char c) = true.
Proof.
  destruct c as [[] [] [] [] [] [] [] []]; vm_compute; congruence.
Qed.

Lemma lower_char_not_upper (c : ascii) :
  negb (is_ascii_upper (lower_char c)) = true.
Proof.
  destruct c as [[] [] [] [] [] [] [] []]; vm_compute; congruence.
Qed.

Lemma all_chars_true (p : ascii -> bool) (s : string) :
  (forall c, p c = true) -> all_chars p s = true.
Proof.
  intros Hp. induction s as [|c s IH]; simpl; [reflexivity|].
  now rewrite Hp, IH.
Qed.

(** Without a colon there is one group, and nothing is left of it. *)
Lemma normalize_no_colon (raw : string) :
  all_chars (not_sep ":") (strip raw) = true ->
  byte_string_to_lens_id raw = "".
Proof.
  intros H. unfold byte_string_to_lens_id.
  now rewrite split_group.
Qed.

End GateFacts.

(** C4, as the code has it. The normaliser checks nothing and has no way to
    fail: for every raw string, matching the pattern or not, it returns a
    string, and that string holds no colon and no uppercase ASCII letter. *)
Theorem normalize_total_unvalidated (self : TapManager.t) (raw : string) :
  all_chars (Py.not_sep ":") (TapManager._byte_string_to_lens_id self raw) = true
  /\ all_chars (fun c => negb (Py.is_ascii_upper c))
               (TapManager._byte_string_to_lens_id self raw) = true.
Proof.
  unfold TapManager._byte_string_to_lens_id. split.
  - apply (GateFacts.all_chars_lower (Py.not_sep ":"));
      [apply GateFacts.lower_char_not_colon|].
    apply NormalizeFacts.all_chars_join; [reflexivity|].
    apply GateFacts.forallb_tl, GateFacts.split_groups_no_sep.
  - apply (GateFacts.all_chars_lower (fun _ => true)).
    + intros c _. apply GateFacts.lower_char_not_upper.
    + now apply GateFacts.all_chars_true.
Qed.

(** C4 as stated does not hold: ["zz:04a52cf22a5e80"] matches the pattern in
    no sense (it is not made of hexadecimal pairs, and [re.match] rejects
    it), yet the normaliser returns the well-formed identifier
    ["04a52cf22a5e80"] for it. *)
Lemma normalize_accepts_unmatched_line :
  ~ (forall (self : TapManager.t) (raw : string),
        spec_colon_hex_line raw = false ->
        Re.re_match BYTE_STRING_RE raw = false ->
        spec_canonical_identifier
          (TapManager._byte_string_to_lens_id self raw) = false).
Proof.
  intros H.
  specialize (H fresh "zz:04a52cf22a5e80" eq_refl eq_refl).
  vm_compute in H. discriminate.
Qed.

(** What the filter of [main] lets through: the lines that start with
    two hexadecimal digits ([re.match] anchors the pattern at the start of
    the line only, and the colon of the pattern is optional); any other
    decoded line changes nothing, records nothing and raises nothing. *)
Lemma main_step_gate
    (cfg : Config) (w : TapManager.world) (line : string) (s : TapManager.t) :
  Re.re_match BYTE_STRING_RE line = starts_with_hex_pair line
  /\ TapManager.main_step cfg w line s
     = if starts_with_hex_pair line
       then TapManager.read_line cfg w line s
       else (Ret tt, s, []).
Proof.
  split; [apply ReFacts.byte_string_re_match|].
  unfold TapManager.main_step.
  rewrite ReFacts.byte_string_re_match.
  now destruct (starts_with_hex_pair line).
Qed.

(** C5. The code at a line that is not made of colon-delimited hexadecimal
    bytes: ["beef stew"] starts with the hexadecimal digits [be], and
    [re.match], which has no anchor at the end of the pattern, accepts it.
    The loop hands the line to [read_line]: the manager opens a session for
    the empty identifier, lights the LEDs and sends a notification with an
    empty uid, where the specification has the line discarded with no change of
    state. *)
Example main_step_beef_stew :
  let x := TapManager.main_iteration default_config delivered
             (TapManager.Decoded "beef stew") fresh in
  spec_colon_hex_line "beef stew" = false
  /\ Re.re_match BYTE_STRING_RE "beef stew" = true
  /\ x = TapManager.read_line default_config delivered "beef stew" fresh
  /\ TapManager.last_id (TapManager.state_of x) = Some ""
  /\ TapManager.actions (TapManager.trace_of x) = [TapManager.TapOn (Some "")]
  /\ TapManager.notified (TapManager.trace_of x) = [Some ""]
  /\ TapManager.ramps (TapManager.trace_of x) = [(0, 255, 0)%Z]
  /\ TapManager.state_of x <> fresh.
Proof. vm_compute. repeat split; discriminate. Qed.

(** ** The tap state machine *)

Module TapFacts.
Import TapManager.

Lemma is_alive_pending (s : t) (h : nat) :
  is_alive s h = true <-> timers s !! h = Some Pending.
Proof.
  unfold is_alive. destruct (timers s !! h) as [[]|]; split; congruence.
Qed.

Lemma actions_app (tr1 tr2 : list event) :
  actions (tr1 ++ tr2) = actions tr1 ++ actions tr2.
Proof. apply omap_app. Qed.

Lemma notified_app (tr1 tr2 : list event) :
  notified (tr1 ++ tr2) = notified tr1 ++ notified tr2.
Proof. apply omap_app. Qed.

(** *** What each method returns *)

Lemma cancel_run (h : nat) (s : t) :
  cancel h s = (Ret tt, cancelled h s, [EvTimerCancel h]).
Proof. reflexivity. Qed.

Lemma tap_off_run (cfg : Config) (s : t) :
  tap_off cfg s
  = (Ret tt,
     upd_leds (fst (LedsManager.success_off cfg (leds s))) (upd_last_id None s),
     EvLog [Some "Tap Off: "; last_id s]
       :: snd (LedsManager.success_off cfg (leds s))).
Proof. reflexivity. Qed.

(** [send_tap] leaves the manager alone. *)
Lemma send_tap_run (cfg : Config) (w : world) (id : option string) (s : t) :
  send_tap cfg w id s
  = (result_of (send_tap cfg w id s), s, trace_of (send_tap cfg w id s)).
Proof.
  unfold send_tap, bind, emit, ret, raise, result_of, trace_of.
  destruct (post_result w) as [code text|[|msg|n m]];
    [destruct (code =? 201)%Z|..]; reflexivity.
Qed.

(** One request leaves [send_tap], for the identifier it was given; no
    log line of a tap action, no LED call, no timer call. *)
Lemma send_tap_trace (cfg : Config) (w : world) (id : option string) (s : t) :
  notified (trace_of (send_tap cfg w id s)) = [id]
  /\ actions (trace_of (send_tap cfg w id s)) = []
  /\ List.filter is_led (trace_of (send_tap cfg w id s)) = []
  /\ List.filter is_timer (trace_of (send_tap cfg w id s)) = [].
Proof.
  unfold send_tap, bind, emit, ret, raise, trace_of.
  destruct (post_result w) as [code text|[|msg|n m]];
    [destruct (code =? 201)%Z|..]; cbn; auto.
Qed.

Lemma tap_on_run (cfg : Config) (w : world) (s : t) :
  tap_on cfg w s
  = (match result_of (send_tap cfg w (last_id s)
                        (upd_leds (fst (LedsManager.success_on cfg (leds s))) s)) with
     | Ret _ => Ret tt
     | Raise e => Raise e
     end,
     upd_leds (fst (LedsManager.success_on cfg (leds s))) s,
     EvLog [Some " Tap On: "; last_id s]
       :: snd (LedsManager.success_on cfg (leds s))
       ++ trace_of (send_tap cfg w (last_id s)
                      (upd_leds (fst (LedsManager.success_on cfg (leds s))) s))).
Proof.
  unfold tap_on, bind, get, emit, with_leds, ret.
  destruct (LedsManager.success_on cfg (leds s)) as [lm tr]. cbn [fst snd].
  pose proof (send_tap_run cfg w (last_id s) (upd_leds lm s)) as Hf.
  destruct (send_tap cfg w (last_id s) (upd_leds lm s)) as [[r s2] tr2].
  cbn in Hf. injection Hf as ->.
  destruct r; cbn; now rewrite ?app_nil_r.
Qed.

Lemma reset_run (cfg : Config) (s : t) :
  _reset_tap_off_timer cfg s
  = let s1 := match tap_off_timer s with
              | Some h => upd_tap_off_timer None (cancelled h s)
              | None => s
              end in
    (Ret tt,
     upd_tap_off_timer (Some (length (timers s1)))
                       (upd_timers (timers s1 ++ [Pending]) s1),
     match tap_off_timer s with
     | Some h => [EvTimerCancel h]
     | None => []
     end ++ [EvTimerStart (length (timers s1)) (TAP_OFF_TIMEOUT cfg)]).
Proof.
  unfold _reset_tap_off_timer, bind, get, emit, ret, set_timers,
    set_tap_off_timer, modify, cancel.
  destruct (tap_off_timer s) as [h|]; reflexivity.
Qed.

(** A line for the identifier that is present only rearms the timer. *)
Lemma read_line_same (cfg : Config) (w : world) (line : string) (s : t) :
  id_differs (_byte_string_to_lens_id s line) (last_id s) = false ->
  read_line cfg w line s = _reset_tap_off_timer cfg s.
Proof.
  intros H. unfold read_line, bind at 1 2, get. rewrite H.
  unfold ret. now destruct (_reset_tap_off_timer cfg s) as [[r s'] tr].
Qed.

(** A line for another identifier while the timer is pending. *)
Lemma read_line_switch (cfg : Config) (w : world) (line : string) (s : t) (h : nat) :
  tap_off_timer s = Some h ->
  is_alive s h = true ->
  id_differs (_byte_string_to_lens_id s line) (last_id s) = true ->
  let id := _byte_string_to_lens_id s line in
  let s2 := state_of (tap_off cfg (cancelled h s)) in
  let s3 := upd_last_id (Some id) s2 in
  let s4 := state_of (tap_on cfg w s3) in
  read_line cfg w line s
  = match result_of (tap_on cfg w s3) with
    | Ret _ =>
        (Ret tt, state_of (_reset_tap_off_timer cfg s4),
         EvTimerCancel h :: trace_of (tap_off cfg (cancelled h s))
           ++ trace_of (tap_on cfg w s3)
           ++ trace_of (_reset_tap_off_timer cfg s4))
    | Raise e =>
        (Raise e, s4,
         EvTimerCancel h :: trace_of (tap_off cfg (cancelled h s))
           ++ trace_of (tap_on cfg w s3))
    end.
Proof.
  intros Ht Ha Hd. cbv zeta.
  unfold read_line, bind at 1 2, get. rewrite Hd, Ht, Ha.
  unfold bind, set_last_id, modify. rewrite cancel_run, tap_off_run.
  cbn [state_of fst snd app].
  destruct (tap_on cfg w _) as [[[[]|e] s4] tr4]; cbn [result_of state_of trace_of fst snd].
  - destruct (_reset_tap_off_timer cfg s4) as [[r5 s5] tr5] eqn:E5.
    rewrite reset_run in E5. cbv zeta in E5. injection E5 as <- _ _.
    cbn [state_of trace_of fst snd app].
    now rewrite <- ?List.app_assoc.
  - now rewrite <- ?List.app_assoc.
Qed.

(** A line for an identifier when no timer is pending. *)
Lemma read_line_start (cfg : Config) (w : world) (line : string) (s : t) :
  match tap_off_timer s with Some h => is_alive s h | None => false end = false ->
  id_differs (_byte_string_to_lens_id s line) (last_id s) = true ->
  let id := _byte_string_to_lens_id s line in
  let s3 := upd_last_id (Some id) s in
  let s4 := state_of (tap_on cfg w s3) in
  read_line cfg w line s
  = match result_of (tap_on cfg w s3) with
    | Ret _ =>
        (Ret tt, state_of (_reset_tap_off_timer cfg s4),
         trace_of (tap_on cfg w s3) ++ trace_of (_reset_tap_off_timer cfg s4))
    | Raise e => (Raise e, s4, trace_of (tap_on cfg w s3))
    end.
Proof.
  intros Ha Hd. cbv zeta.
  unfold read_line, bind at 1 2, get. rewrite Hd.
  assert (E : match tap_off_timer s with
              | Some h => if is_alive s h then cancel h;;; tap_off cfg else ret ()
              | None => ret ()
              end = ret tt).
  { destruct (tap_off_timer s); [now rewrite Ha | reflexivity]. }
  rewrite E. unfold bind, set_last_id, modify, ret.
  cbn [state_of fst snd app].
  destruct (tap_on cfg w _) as [[[[]|e] s4] tr4]; cbn [result_of state_of trace_of fst snd].
  - destruct (_reset_tap_off_timer cfg s4) as [[r5 s5] tr5] eqn:E5.
    rewrite reset_run in E5. cbv zeta in E5. injection E5 as <- _ _.
    cbn [state_of trace_of fst snd app].
    now rewrite <- ?List.app_assoc.
  - now rewrite <- ?List.app_assoc.
Qed.


Lemma cancelled_length (h : nat) (s : t) :
  length (timers (cancelled h s)) = length (timers s).
Proof.
  unfold cancelled. destruct (is_alive s h); [|reflexivity].
  cbn. apply length_insert.
Qed.

Lemma cancelled_not_alive (h : nat) (s : t) : is_alive (cancelled h s) h = false.
Proof.
  unfold cancelled. destruct (is_alive s h) eqn:Ha; [|exact Ha].
  apply is_alive_pending in Ha. apply lookup_lt_Some in Ha.
  unfold is_alive. cbn [timers upd_timers].
  now rewrite list_lookup_insert_eq.
Qed.

Lemma cancelled_frame (h : nat) (s : t) :
  last_id (cancelled h s) = last_id s
  /\ leds (cancelled h s) = leds s
  /\ tap_off_timer (cancelled h s) = tap_off_timer s.
Proof. unfold cancelled. now destruct (is_alive s h). Qed.

(** After [_reset_tap_off_timer] the handle is a new, pending timer; the
    timer it replaces is not pending any more; nothing else changes. *)
Lemma reset_rearms (cfg : Config) (s : t) :
  let s' := state_of (_reset_tap_off_timer cfg s) in
  tap_off_timer s' = Some (length (timers s))
  /\ is_alive s' (length (timers s)) = true
  /\ (forall h, tap_off_timer s = Some h -> h < length (timers s) ->
               is_alive s' h = false)
  /\ last_id s' = last_id s
  /\ leds s' = leds s.
Proof.
  rewrite reset_run. cbv zeta. cbn [state_of fst snd].
  destruct (tap_off_timer s) as [h|] eqn:Ht.
  - cbn [tap_off_timer timers last_id leds upd_tap_off_timer upd_timers].
    rewrite cancelled_length.
    destruct (cancelled_frame h s) as [Hl [Hd _]].
    repeat split; try assumption.
    + unfold is_alive. cbn [timers upd_timers upd_tap_off_timer].
      rewrite lookup_app_r by (rewrite cancelled_length; lia).
      now rewrite cancelled_length, Nat.sub_diag.
    + intros h' [= <-] Hlt. pose proof (cancelled_not_alive h s) as Hn.
      unfold is_alive in *. cbn [timers upd_timers upd_tap_off_timer].
      rewrite lookup_app_l by (rewrite cancelled_length; exact Hlt).
      exact Hn.
  - cbn [tap_off_timer timers last_id leds upd_tap_off_timer upd_timers].
    repeat split.
    + unfold is_alive. cbn [timers upd_timers upd_tap_off_timer].
      rewrite lookup_app_r by lia. now rewrite Nat.sub_diag.
    + discriminate.
Qed.

(** [read_line] fails only when [send_tap] does. *)
Lemma read_line_handled (cfg : Config) (w : world) (line : string) (s : t) :
  handled (post_result w) = true ->
  result_of (read_line cfg w line s) = Ret tt.
Proof.
  intros Hh.
  assert (Hon : forall s0, result_of (tap_on cfg w s0) = Ret tt).
  { intros s0. rewrite tap_on_run. cbn [result_of fst].
    unfold send_tap, bind, emit, ret, raise.
    destruct (post_result w) as [code text|[|msg|n m]]; try discriminate;
      [destruct (code =? 201)%Z|]; reflexivity. }
  destruct (id_differs (_byte_string_to_lens_id s line) (last_id s)) eqn:Hd.
  - destruct (match tap_off_timer s with
              | Some h => is_alive s h
              | None => false
              end) eqn:Ha.
    + destruct (tap_off_timer s) as [h|] eqn:Ht; [|discriminate].
      rewrite (read_line_switch cfg w line s h Ht Ha Hd). now rewrite Hon.
    + rewrite (read_line_start cfg w line s Ha Hd). now rewrite Hon.
  - rewrite (read_line_same cfg w line s Hd). now rewrite reset_run.
Qed.

End TapFacts.

Module SessionFacts.
Import TapManager TapFacts.

(** An LED ramp is neither a tap action nor a notification. *)
Lemma ramp_silent (lm : LedsManager.t) (target : color) (d : Q) :
  actions (snd (LedsManager.ramp lm target d)) = []
  /\ notified (snd (LedsManager.ramp lm target d)) = [].
Proof. unfold LedsManager.ramp. now destruct (LedsManager.thread lm). Qed.

Lemma is_alive_timers (s1 s2 : t) (h : nat) :
  timers s1 = timers s2 -> is_alive s1 h = is_alive s2 h.
Proof. unfold is_alive. now intros ->. Qed.

Lemma tap_off_actions (cfg : Config) (s : t) :
  actions (trace_of (tap_off cfg s)) = [TapOff (last_id s)]
  /\ notified (trace_of (tap_off cfg s)) = [].
Proof.
  rewrite tap_off_run. cbn [trace_of snd].
  destruct (ramp_silent (leds s) (LEDS_COLOUR_DEFAULT cfg) (6 # 10)) as [Ha Hn].
  unfold LedsManager.success_off. split.
  - change (actions (?e :: ?tr)) with (actions ([e] ++ tr)).
    now rewrite actions_app, Ha.
  - change (notified (?e :: ?tr)) with (notified ([e] ++ tr)).
    now rewrite notified_app, Hn.
Qed.

Lemma tap_on_actions (cfg : Config) (w : world) (s : t) :
  actions (trace_of (tap_on cfg w s)) = [TapOn (last_id s)]
  /\ notified (trace_of (tap_on cfg w s)) = [last_id s].
Proof.
  rewrite tap_on_run. cbn [trace_of snd].
  destruct (ramp_silent (leds s) (LEDS_COLOUR_SUCCESS cfg) (6 # 10)) as [Ha Hn].
  destruct (send_tap_trace cfg w (last_id s)
              (upd_leds (fst (LedsManager.success_on cfg (leds s))) s))
    as [Hn' [Ha' _]].
  unfold LedsManager.success_on in *. split.
  - change (actions (?e :: ?tr)) with (actions ([e] ++ tr)).
    now rewrite !actions_app, Ha, Ha'.
  - change (notified (?e :: ?tr)) with (notified ([e] ++ tr)).
    now rewrite !notified_app, Hn, Hn'.
Qed.

Lemma reset_actions (cfg : Config) (s : t) :
  actions (trace_of (_reset_tap_off_timer cfg s)) = []
  /\ notified (trace_of (_reset_tap_off_timer cfg s)) = []
  /\ List.filter is_led (trace_of (_reset_tap_off_timer cfg s)) = [].
Proof. rewrite reset_run. now destruct (tap_off_timer s). Qed.

Lemma tap_on_state (cfg : Config) (w : world) (s : t) :
  last_id (state_of (tap_on cfg w s)) = last_id s
  /\ timers (state_of (tap_on cfg w s)) = timers s
  /\ tap_off_timer (state_of (tap_on cfg w s)) = tap_off_timer s
  /\ leds (state_of (tap_on cfg w s)) = fst (LedsManager.success_on cfg (leds s)).
Proof. rewrite tap_on_run. auto. Qed.

Lemma tap_off_state (cfg : Config) (s : t) :
  last_id (state_of (tap_off cfg s)) = None
  /\ timers (state_of (tap_off cfg s)) = timers s
  /\ tap_off_timer (state_of (tap_off cfg s)) = tap_off_timer s
  /\ leds (state_of (tap_off cfg s)) = fst (LedsManager.success_off cfg (leds s)).
Proof. rewrite tap_off_run. auto. Qed.

End SessionFacts.

(** C1. A line whose identifier differs from [last_id] while the debounce
    timer is alive: the timer is cancelled, then exactly one tap-off is
    executed, for the previous identifier, then exactly one tap-on, for the
    new one, in that order within the call; the two identifiers differ; one
    notification leaves, for the new identifier; the new identifier is the
    session's, and the old timer is no longer alive. *)
Theorem read_line_switches_session
    (cfg : Config) (w : TapManager.world) (line : string)
    (s : TapManager.t) (h : nat) :
  TapManager.tap_off_timer s = Some h ->
  TapManager.is_alive s h = true ->
  TapManager.id_differs (TapManager._byte_string_to_lens_id s line)
                        (TapManager.last_id s) = true ->
  let id := TapManager._byte_string_to_lens_id s line in
  let x := TapManager.read_line cfg w line s in
  TapManager.actions (TapManager.trace_of x)
  = [TapManager.TapOff (TapManager.last_id s); TapManager.TapOn (Some id)]
  /\ TapManager.last_id s <> Some id
  /\ head (TapManager.trace_of x) = Some (EvTimerCancel h)
  /\ TapManager.notified (TapManager.trace_of x) = [Some id]
  /\ TapManager.last_id (TapManager.state_of x) = Some id
  /\ TapManager.is_alive (TapManager.state_of x) h = false.
Proof.
  intros Ht Ha Hd id x. subst x.
  rewrite (TapFacts.read_line_switch cfg w line s h Ht Ha Hd). fold id.
  set (s1 := TapManager.cancelled h s).
  set (s3 := TapManager.upd_last_id (Some id)
               (TapManager.state_of (TapManager.tap_off cfg s1))).
  destruct (SessionFacts.tap_off_actions cfg s1) as [Hoa Hon].
  destruct (SessionFacts.tap_on_actions cfg w s3) as [Hna Hnn].
  destruct (SessionFacts.tap_on_state cfg w s3) as [Hl [Htm [Hh _]]].
  destruct (SessionFacts.tap_off_state cfg s1) as [_ [Hotm [Hoh _]]].
  destruct (TapFacts.cancelled_frame h s) as [Hcl [_ Hct]].
  fold s1 in Hcl, Hct.
  assert (Htm3 : TapManager.timers s3 = TapManager.timers s1) by exact Hotm.
  assert (Hh3 : TapManager.tap_off_timer s3 = Some h).
  { transitivity (TapManager.tap_off_timer s1); [exact Hoh | congruence]. }
  rewrite Htm3 in Htm. rewrite Hh3 in Hh. clear Hotm Hoh.
  assert (Hne : TapManager.last_id s <> Some id).
  { intros E. unfold TapManager.id_differs in Hd. fold id in Hd.
    rewrite E, String.eqb_refl in Hd. discriminate. }
  assert (Hdead : TapManager.is_alive (TapManager.state_of
                                        (TapManager.tap_on cfg w s3)) h = false).
  { rewrite (SessionFacts.is_alive_timers _ s1 h) by exact Htm.
    apply TapFacts.cancelled_not_alive. }
  destruct (TapManager.result_of (TapManager.tap_on cfg w s3)) as [[]|e].
  - destruct (SessionFacts.reset_actions cfg
                (TapManager.state_of (TapManager.tap_on cfg w s3)))
      as [Hra [Hrn _]].
    cbn [TapManager.trace_of TapManager.state_of fst snd].
    change (TapManager.actions (?e :: ?tr)) with (TapManager.actions ([e] ++ tr)).
    change (TapManager.notified (?e :: ?tr)) with (TapManager.notified ([e] ++ tr)).
    rewrite !TapFacts.actions_app, !TapFacts.notified_app.
    unfold TapManager.trace_of in *. rewrite Hoa, Hon, Hna, Hnn, Hra, Hrn, Hcl.
    repeat split; try assumption; try reflexivity.
    + destruct (TapFacts.reset_rearms cfg
                  (TapManager.state_of (TapManager.tap_on cfg w s3)))
        as [_ [_ [_ [Hrl _]]]].
      unfold TapManager.state_of in *. now rewrite Hrl, Hl.
    + destruct (TapFacts.reset_rearms cfg
                  (TapManager.state_of (TapManager.tap_on cfg w s3)))
        as [_ [_ [Hold _]]].
      apply Hold.
      * exact Hh.
      * rewrite Htm.
        subst s1. rewrite TapFacts.cancelled_length.
        apply TapFacts.is_alive_pending in Ha.
        eapply lookup_lt_Some; eassumption.
  - cbn [TapManager.trace_of TapManager.state_of fst snd].
    change (TapManager.actions (?e :: ?tr)) with (TapManager.actions ([e] ++ tr)).
    change (TapManager.notified (?e :: ?tr)) with (TapManager.notified ([e] ++ tr)).
    rewrite !TapFacts.actions_app, !TapFacts.notified_app.
    unfold TapManager.trace_of, TapManager.state_of in *.
    rewrite Hoa, Hon, Hna, Hnn, Hcl, Hl.
    repeat split; try assumption; try reflexivity.
Qed.

Lemma read_line_switches_session_witness :
  TapManager.actions
    (TapManager.trace_of
       (TapManager.read_line default_config delivered "04:DD:EE:FF" present))
  = [TapManager.TapOff (Some "aabbcc"); TapManager.TapOn (Some "ddeeff")].
Proof.
  exact (proj1 (read_line_switches_session default_config delivered
                  "04:DD:EE:FF" present 0 eq_refl eq_refl eq_refl)).
Defined.

Module LoopFacts.
Import TapManager TapFacts SessionFacts.

Lemma bind_projections {A B} (m : M A) (k : A -> M B) (s : t) :
  bind m k s
  = match result_of (m s) with
    | Ret a =>
        (result_of (k a (state_of (m s))),
         state_of (k a (state_of (m s))),
         trace_of (m s) ++ trace_of (k a (state_of (m s))))
    | Raise e => (Raise e, state_of (m s), trace_of (m s))
    end.
Proof.
  unfold bind, result_of, state_of, trace_of.
  destruct (m s) as [[[a|e] s1] tr1]; cbn [fst snd]; [|reflexivity].
  now destruct (k a s1) as [[r s2] tr2].
Qed.

(** A line for the identifier that is present: what [main_step] does. *)
Lemma main_step_same (cfg : Config) (w : world) (line : string) (s : t) :
  last_id s = Some (byte_string_to_lens_id line) ->
  let x := main_step cfg w line s in
  result_of x = Ret tt
  /\ notified (trace_of x) = []
  /\ actions (trace_of x) = []
  /\ last_id (state_of x) = last_id s.
Proof.
  intros Hl. cbv zeta. unfold main_step.
  destruct (Re.re_match BYTE_STRING_RE line); [|now cbn].
  assert (Hd : id_differs (_byte_string_to_lens_id s line) (last_id s) = false).
  { rewrite Hl. unfold id_differs, _byte_string_to_lens_id, byte_string_to_lens_id.
    now rewrite String.eqb_refl. }
  rewrite (read_line_same cfg w line s Hd).
  destruct (reset_actions cfg s) as [Ha [Hn _]].
  destruct (reset_rearms cfg s) as [_ [_ [_ [Hid _]]]].
  repeat split; try assumption. now rewrite reset_run.
Qed.

(** While the same tag stays on the reader, whatever the number of lines,
    nothing is notified and no tap action is taken. *)
Lemma same_id_lines_silent (cfg : Config) (input : list (world * string)) :
  forall (s : t) (id : string),
    last_id s = Some id ->
    Forall (fun wl => byte_string_to_lens_id (snd wl) = id) input ->
    let x := main_loop cfg input s in
    result_of x = Ret tt
    /\ notified (trace_of x) = []
    /\ actions (trace_of x) = []
    /\ last_id (state_of x) = Some id.
Proof.
  induction input as [|[w line] rest IH]; intros s id Hl Hall; cbv zeta.
  - cbn. auto.
  - apply Forall_cons in Hall as [Hline Hrest]. cbn [snd] in Hline.
    cbn [main_loop]. rewrite bind_projections.
    destruct (main_step_same cfg w line s) as [Hr [Hn [Ha Hid]]];
      [now rewrite Hl, Hline|].
    rewrite Hr.
    destruct (IH (state_of (main_step cfg w line s)) id) as [Hr' [Hn' [Ha' Hid']]];
      [now rewrite Hid | assumption |].
    cbn [result_of state_of trace_of fst snd].
    unfold result_of, state_of, trace_of in *.
    rewrite notified_app, actions_app, Hn, Hn', Ha, Ha'. auto.
Qed.

End LoopFacts.

(** C2. A line whose identifier equals [last_id]: no tap-on, no tap-off, no
    notification, no LED call; the call returns normally and its whole
    trace is the cancellation of the old timer followed by the start of a new
    one, which becomes the manager's timer and is alive while the old one is
    not; [last_id] and the LEDs are untouched.  Hence any run of lines for
    the tag that is present notifies nothing more. *)
Theorem read_line_same_id_rearms
    (cfg : Config) (w : TapManager.world) (line : string) (s : TapManager.t) :
  TapManager.handle_valid s = true ->
  TapManager.last_id s = Some (TapManager._byte_string_to_lens_id s line) ->
  let x := TapManager.read_line cfg w line s in
  let h' := length (TapManager.timers s) in
  TapManager.result_of x = Ret tt
  /\ TapManager.trace_of x
     = match TapManager.tap_off_timer s with
       | Some h => [EvTimerCancel h]
       | None => []
       end ++ [EvTimerStart h' (TAP_OFF_TIMEOUT cfg)]
  /\ TapManager.actions (TapManager.trace_of x) = []
  /\ TapManager.notified (TapManager.trace_of x) = []
  /\ List.filter TapManager.is_led (TapManager.trace_of x) = []
  /\ TapManager.last_id (TapManager.state_of x) = TapManager.last_id s
  /\ TapManager.leds (TapManager.state_of x) = TapManager.leds s
  /\ TapManager.tap_off_timer (TapManager.state_of x) = Some h'
  /\ TapManager.is_alive (TapManager.state_of x) h' = true
  /\ match TapManager.tap_off_timer s with
     | Some h => TapManager.is_alive (TapManager.state_of x) h = false
     | None => True
     end
  /\ (forall input : list (TapManager.world * string),
         Forall (fun wl => byte_string_to_lens_id (snd wl)
                           = byte_string_to_lens_id line) input ->
         TapManager.notified
           (TapManager.trace_of
              (TapManager.main_loop cfg input (TapManager.state_of x))) = []).
Proof.
  intros Hv Hl x h'. subst x h'.
  assert (Hd : TapManager.id_differs (TapManager._byte_string_to_lens_id s line)
                 (TapManager.last_id s) = false).
  { rewrite Hl. unfold TapManager.id_differs. now rewrite String.eqb_refl. }
  rewrite (TapFacts.read_line_same cfg w line s Hd).
  destruct (SessionFacts.reset_actions cfg s) as [Ha [Hn Hled]].
  destruct (TapFacts.reset_rearms cfg s) as [Hh [Halive [Hold [Hid Hleds]]]].
  repeat split; try assumption.
  - now rewrite TapFacts.reset_run.
  - rewrite TapFacts.reset_run. cbv zeta. cbn [TapManager.trace_of snd].
    destruct (TapManager.tap_off_timer s) as [h|]; [|reflexivity].
    cbn [TapManager.timers TapManager.upd_tap_off_timer].
    now rewrite TapFacts.cancelled_length.
  - destruct (TapManager.tap_off_timer s) as [h|] eqn:Ht; [|exact I].
    apply Hold; [reflexivity|].
    unfold TapManager.handle_valid in Hv. rewrite Ht in Hv.
    now apply Nat.ltb_lt.
  - intros input Hall.
    apply (LoopFacts.same_id_lines_silent cfg input _
             (byte_string_to_lens_id line)); [|exact Hall].
    now rewrite Hid, Hl.
Qed.

Lemma read_line_same_id_rearms_witness :
  TapManager.trace_of
    (TapManager.read_line default_config delivered "04:AA:BB:CC" present)
  = [EvTimerCancel 0; EvTimerStart 1 (5 # 10)].
Proof.
  exact (proj1 (proj2 (read_line_same_id_rearms default_config delivered
                         "04:AA:BB:CC" present eq_refl eq_refl))).
Defined.

(** ** Notification failures *)

Module OutcomeFacts.
Import TapManager TapFacts SessionFacts LoopFacts.

Lemma ramp_leds (lm : LedsManager.t) (target : color) (d : Q) :
  List.filter is_led (snd (LedsManager.ramp lm target d)) = snd (LedsManager.ramp lm target d)
  /\ ramps (snd (LedsManager.ramp lm target d)) = [target].
Proof. unfold LedsManager.ramp. now destruct (LedsManager.thread lm). Qed.

Lemma send_tap_no_ramp (cfg : Config) (w : world) (id : option string) (s : t) :
  ramps (trace_of (send_tap cfg w id s)) = [].
Proof.
  unfold send_tap, bind, emit, ret, raise, trace_of.
  destruct (post_result w) as [code text|[|msg|n m]];
    [destruct (code =? 201)%Z|..]; reflexivity.
Qed.

(** The LED calls of [tap_on] are those of [success_on], whatever happens
    to the request. *)
Lemma tap_on_leds (cfg : Config) (w : world) (s : t) :
  List.filter is_led (trace_of (tap_on cfg w s))
  = snd (LedsManager.success_on cfg (leds s))
  /\ ramps (trace_of (tap_on cfg w s)) = [LEDS_COLOUR_SUCCESS cfg].
Proof.
  rewrite tap_on_run. cbn [trace_of snd].
  destruct (ramp_leds (leds s) (LEDS_COLOUR_SUCCESS cfg) (6 # 10)) as [Hf Hr].
  destruct (send_tap_trace cfg w (last_id s)
              (upd_leds (fst (LedsManager.success_on cfg (leds s))) s))
    as [_ [_ [Hl _]]].
  pose proof (send_tap_no_ramp cfg w (last_id s)
                (upd_leds (fst (LedsManager.success_on cfg (leds s))) s)) as Hn.
  unfold LedsManager.success_on, trace_of in *. split.
  - cbn [List.filter is_led]. now rewrite List.filter_app, Hf, Hl, app_nil_r.
  - change (ramps (?e :: ?tr)) with (ramps ([e] ++ tr)).
    unfold ramps in *. now rewrite !omap_app, Hr, Hn.
Qed.

Lemma tap_on_handled (cfg : Config) (w : world) (s : t) :
  handled (post_result w) = true -> result_of (tap_on cfg w s) = Ret tt.
Proof.
  intros Hh. rewrite tap_on_run. cbn [result_of fst].
  unfold send_tap, bind, emit, ret, raise.
  destruct (post_result w) as [code text|[|msg|n m]]; try discriminate;
    [destruct (code =? 201)%Z|]; reflexivity.
Qed.

Lemma tap_on_state_indep (cfg : Config) (w1 w2 : world) (s : t) :
  state_of (tap_on cfg w1 s) = state_of (tap_on cfg w2 s).
Proof. now rewrite !tap_on_run. Qed.

Lemma id_same (id : string) (last : option string) :
  id_differs id last = false -> last = Some id.
Proof.
  unfold id_differs. destruct last as [prev|]; [|discriminate].
  intros H. apply negb_false_iff, String.eqb_eq in H. now subst.
Qed.

(** After a line, the identifier of the line is the session's. *)
Lemma read_line_last_id (cfg : Config) (w : world) (line : string) (s : t) :
  last_id (state_of (read_line cfg w line s))
  = Some (_byte_string_to_lens_id s line).
Proof.
  assert (Hreset : forall s0, last_id (state_of (_reset_tap_off_timer cfg s0))
                              = last_id s0).
  { intros s0. now destruct (reset_rearms cfg s0) as [_ [_ [_ [H _]]]]. }
  assert (Hon : forall s0, last_id (state_of (tap_on cfg w s0)) = last_id s0).
  { intros s0. now destruct (tap_on_state cfg w s0) as [H _]. }
  destruct (id_differs (_byte_string_to_lens_id s line) (last_id s)) eqn:Hd.
  - destruct (match tap_off_timer s with
              | Some h => is_alive s h
              | None => false
              end) eqn:Ha.
    + destruct (tap_off_timer s) as [h|] eqn:Ht; [|discriminate].
      rewrite (read_line_switch cfg w line s h Ht Ha Hd).
      destruct (result_of (tap_on cfg w _)); cbn [state_of fst snd].
      * unfold state_of in *. now rewrite Hreset, Hon.
      * unfold state_of in *. now rewrite Hon.
    + rewrite (read_line_start cfg w line s Ha Hd).
      destruct (result_of (tap_on cfg w _)); cbn [state_of fst snd].
      * unfold state_of in *. now rewrite Hreset, Hon.
      * unfold state_of in *. now rewrite Hon.
  - rewrite (read_line_same cfg w line s Hd), Hreset.
    now apply id_same.
Qed.

(** The manager and the LED calls after a line do not depend on the fate
    of the request, as long as [send_tap] handles it. *)
Lemma read_line_outcome_indep (cfg : Config) (w1 w2 : world) (line : string) (s : t) :
  handled (post_result w1) = true ->
  handled (post_result w2) = true ->
  state_of (read_line cfg w1 line s) = state_of (read_line cfg w2 line s)
  /\ List.filter is_led (trace_of (read_line cfg w1 line s))
     = List.filter is_led (trace_of (read_line cfg w2 line s)).
Proof.
  intros H1 H2.
  destruct (id_differs (_byte_string_to_lens_id s line) (last_id s)) eqn:Hd.
  - destruct (match tap_off_timer s with
              | Some h => is_alive s h
              | None => false
              end) eqn:Ha.
    + destruct (tap_off_timer s) as [h|] eqn:Ht; [|discriminate].
      rewrite !(read_line_switch cfg _ line s h Ht Ha Hd).
      rewrite !tap_on_handled by assumption.
      cbn [state_of trace_of fst snd].
      rewrite (tap_on_state_indep cfg w1 w2). split; [reflexivity|].
      cbn [List.filter is_led]. rewrite !List.filter_app.
      destruct (tap_on_leds cfg w1
                  (upd_last_id (Some (_byte_string_to_lens_id s line))
                     (state_of (tap_off cfg (cancelled h s))))) as [-> _].
      destruct (tap_on_leds cfg w2
                  (upd_last_id (Some (_byte_string_to_lens_id s line))
                     (state_of (tap_off cfg (cancelled h s))))) as [-> _].
      reflexivity.
    + rewrite !(read_line_start cfg _ line s Ha Hd).
      rewrite !tap_on_handled by assumption.
      cbn [state_of trace_of fst snd].
      rewrite (tap_on_state_indep cfg w1 w2). split; [reflexivity|].
      rewrite !List.filter_app.
      destruct (tap_on_leds cfg w1
                  (upd_last_id (Some (_byte_string_to_lens_id s line)) s))
        as [-> _].
      destruct (tap_on_leds cfg w2
                  (upd_last_id (Some (_byte_string_to_lens_id s line)) s))
        as [-> _].
      reflexivity.
  - now rewrite !(read_line_same cfg _ line s Hd).
Qed.

End OutcomeFacts.



(** C9. Tap-on under two outcomes that [send_tap] handles (delivered,
    rejected, transport failure): the manager after [tap_on] is the same, with
    [last_id] as it was set; the LED calls are those of [success_on] in both
    cases, the only ramp started goes to the success colour; one request is
    made, no more; the same holds of the whole call of [read_line], after
    which [last_id] is the identifier of the line. *)
Theorem tap_on_ignores_outcome
    (cfg : Config) (w1 w2 : TapManager.world) (line : string) (s : TapManager.t) :
  TapManager.handled (TapManager.post_result w1) = true ->
  TapManager.handled (TapManager.post_result w2) = true ->
  TapManager.state_of (TapManager.tap_on cfg w1 s)
  = TapManager.state_of (TapManager.tap_on cfg w2 s)
  /\ TapManager.result_of (TapManager.tap_on cfg w1 s) = Ret tt
  /\ TapManager.last_id (TapManager.state_of (TapManager.tap_on cfg w1 s))
     = TapManager.last_id s
  /\ List.filter TapManager.is_led (TapManager.trace_of (TapManager.tap_on cfg w1 s))
     = snd (LedsManager.success_on cfg (TapManager.leds s))
  /\ List.filter TapManager.is_led (TapManager.trace_of (TapManager.tap_on cfg w2 s))
     = snd (LedsManager.success_on cfg (TapManager.leds s))
  /\ TapManager.ramps (TapManager.trace_of (TapManager.tap_on cfg w1 s))
     = [LEDS_COLOUR_SUCCESS cfg]
  /\ TapManager.notified (TapManager.trace_of (TapManager.tap_on cfg w1 s))
     = [TapManager.last_id s]
  /\ TapManager.state_of (TapManager.read_line cfg w1 line s)
     = TapManager.state_of (TapManager.read_line cfg w2 line s)
  /\ List.filter TapManager.is_led
       (TapManager.trace_of (TapManager.read_line cfg w1 line s))
     = List.filter TapManager.is_led
         (TapManager.trace_of (TapManager.read_line cfg w2 line s))
  /\ TapManager.last_id (TapManager.state_of (TapManager.read_line cfg w1 line s))
     = Some (TapManager._byte_string_to_lens_id s line).
Proof.
  intros H1 H2.
  destruct (OutcomeFacts.tap_on_leds cfg w1 s) as [Hl1 Hr1].
  destruct (OutcomeFacts.tap_on_leds cfg w2 s) as [Hl2 _].
  destruct (SessionFacts.tap_on_state cfg w1 s) as [Hid _].
  destruct (SessionFacts.tap_on_actions cfg w1 s) as [_ Hn].
  destruct (OutcomeFacts.read_line_outcome_indep cfg w1 w2 line s H1 H2)
    as [Hs Hf].
  repeat split; try assumption.
  - apply OutcomeFacts.tap_on_state_indep.
  - now apply OutcomeFacts.tap_on_handled.
  - apply OutcomeFacts.read_line_last_id.
Qed.

Lemma tap_on_ignores_outcome_witness :
  TapManager.state_of
    (TapManager.read_line default_config delivered "04:AA:BB:CC" fresh)
  = TapManager.state_of
      (TapManager.read_line default_config unreachable "04:AA:BB:CC" fresh).
Proof.
  exact (proj1 (proj2 (proj2 (proj2 (proj2 (proj2 (proj2 (proj2
           (tap_on_ignores_outcome default_config delivered unreachable
              "04:AA:BB:CC" fresh eq_refl eq_refl))))))))).
Defined.

(** ** LED ramps *)

Module RampFacts.
Import RampThread.

Lemma written_set_leds (cfg : Config) (c : color) :
  written_color (set_leds cfg c) = Some c.
Proof. unfold set_leds. now destruct (has_leds cfg). Qed.

Lemma colors_written_app (o1 o2 : list output) :
  colors_written (o1 ++ o2) = colors_written o1 ++ colors_written o2.
Proof. apply omap_app. Qed.

Lemma colors_written_set_leds (cfg : Config) (cols : list color) :
  colors_written (map (set_leds cfg) cols) = cols.
Proof.
  induction cols as [|c cols IH]; [reflexivity|].
  cbn [map]. change (colors_written (?o :: ?out))
    with (colors_written ([o] ++ out)).
  rewrite colors_written_app, IH. unfold colors_written. cbn.
  now rewrite written_set_leds.
Qed.

(** The division of [ease] is the only thing that can fail, and it fails
    exactly when the duration is zero. *)
Lemma ease_zero (t b c d : Q) : (d == 0)%Q -> ease t b c d = Raise ZeroDivisionError.
Proof.
  intros Hd. unfold ease. apply Qeq_bool_iff in Hd. now rewrite Hd.
Qed.

Lemma ease_nonzero (t b c d : Q) :
  ~ (d == 0)%Q -> ease t b c d = Ret (c * (t / d) * (t / d) * (t / d) + b)%Q.
Proof.
  intros Hd. unfold ease.
  destruct (Qeq_bool d 0) eqn:E; [|reflexivity].
  apply Qeq_bool_iff in E. contradiction.
Qed.

Lemma interpolate_nonzero (t : Q) (start_color diff : color) (d : Q) :
  ~ (d == 0)%Q -> exists c, interpolate t start_color diff d = Ret c.
Proof.
  intros Hd. destruct start_color as [[s0 s1] s2], diff as [[d0 d1] d2].
  unfold interpolate. rewrite !ease_nonzero by assumption. eauto.
Qed.

Lemma Qle_bool_false (x y : Q) : (y < x)%Q -> Qle_bool x y = false.
Proof.
  intros Hlt. destruct (Qle_bool x y) eqn:E; [|reflexivity].
  apply Qle_bool_iff in E. exfalso. eapply Qlt_not_le; eassumption.
Qed.

(** A loop that is not stopped and whose clock does not run backwards goes
    through the readings below the duration, one write for each, then
    writes the target at the first reading at or above the duration and
    ends; what comes after that reading is not looked at. *)
Lemma run_loop_completes (cfg : Config) (start_color diff target : color)
    (d t0 now : Q) (pre : list (Q * bool)) :
  Forall (fun o => snd o = false /\ (t0 <= fst o)%Q /\ (fst o - t0 < d)%Q) pre ->
  (d <= now - t0)%Q ->
  forall cur : color,
  exists (fin : color) (cols : list color),
    length cols = length pre
    /\ forall rest : list (Q * bool),
        run_loop cfg start_color diff target d t0 cur (pre ++ (now, false) :: rest)
        = (Completed, fin, map (set_leds cfg) cols ++ [set_leds cfg target]).
Proof.
  intros Hpre Hnow. induction Hpre as [|[t stopped] pre [Hs [Ht0 Htd]] _ IH];
    intros cur.
  - exists cur, []. split; [reflexivity|]. intros rest.
    cbn [app run_loop map length].
    apply Qle_bool_iff in Hnow. now rewrite Hnow.
  - cbn [fst snd] in Hs, Ht0, Htd. subst stopped.
    assert (Hd : ~ (d == 0)%Q).
    { intros E. rewrite E in Htd.
      apply (Qlt_not_le _ _ Htd). now apply Qle_minus_iff in Ht0. }
    destruct (interpolate_nonzero (t - t0) start_color diff d Hd) as [cur' Hi].
    destruct (IH cur') as [fin [cols [Hlen Hrun]]].
    exists fin, (cur' :: cols). split; [cbn [length]; now rewrite Hlen|].
    intros rest.
    change (((t, false) :: pre) ++ (now, false) :: rest)
      with ((t, false) :: (pre ++ (now, false) :: rest)).
    cbn [run_loop]. now rewrite (Qle_bool_false _ _ Htd), Hi, Hrun.
Qed.

Lemma last_cons_nonempty {A} (x y : A) (l : list A) :
  last l = Some y -> last (x :: l) = Some y.
Proof. destruct l as [|z l]; [discriminate | auto]. Qed.

(** Whenever the loop ends with [Completed], its last write is the target. *)
Lemma run_loop_completed_last (cfg : Config) (start_color diff target : color)
    (d t0 : Q) (obs : list (Q * bool)) :
  forall cur : color,
    fst (fst (run_loop cfg start_color diff target d t0 cur obs)) = Completed ->
    last (colors_written
            (snd (run_loop cfg start_color diff target d t0 cur obs)))
    = Some target.
Proof.
  induction obs as [|[now stopped] obs IH]; intros cur; cbn [run_loop].
  - discriminate.
  - destruct stopped; [discriminate|].
    destruct (Qle_bool d (now - t0)).
    + intros _. cbn [snd]. unfold colors_written. cbn.
      now rewrite written_set_leds.
    + destruct (interpolate (now - t0) start_color diff d) as [cur'|e];
        [|discriminate].
      specialize (IH cur').
      destruct (run_loop cfg start_color diff target d t0 cur' obs)
        as [[st fin] out].
      cbn [fst snd] in *. intros Hst.
      change (colors_written (?o :: ?out))
        with (colors_written ([o] ++ out)).
      rewrite colors_written_app. unfold colors_written at 1. cbn.
      rewrite written_set_leds. cbn.
      apply last_cons_nonempty. now apply IH.
Qed.

End RampFacts.

(** C7, as the code has it. A ramp of duration zero: [ramp] starts a thread
    which, if it is not stopped before its first look at the clock and if
    that first reading of the clock is not below the reading taken when the
    thread started, writes the target colour at once, as its only write,
    and ends without an error, having made no interpolation step. *)
Theorem ramp_zero_duration_snaps
    (cfg : Config) (lm : LedsManager.t) (target : color)
    (d t0 now : Q) (rest : list (Q * bool)) :
  (d == 0)%Q ->
  (t0 <= now)%Q ->
  let th := {| RampThread.current_color := LedsManager.current_color lm;
               RampThread.target_color := target;
               RampThread.duration_s := d |} in
  let x := RampThread.run cfg th t0 ((now, false) :: rest) in
  LedsManager.thread (fst (LedsManager.ramp lm target d)) = Some th
  /\ last (snd (LedsManager.ramp lm target d)) = Some (EvRampStart th)
  /\ x = (RampThread.Completed, LedsManager.current_color lm,
          [RampThread.PrintRamping (LedsManager.current_color lm) target;
           RampThread.set_leds cfg target])
  /\ RampThread.colors_written (snd x) = [target].
Proof.
  intros Hd Hclock th x.
  assert (Hle : Qle_bool d (now - t0) = true).
  { apply Qle_bool_iff. rewrite Hd. now apply Qle_minus_iff in Hclock. }
  assert (Hx : x = (RampThread.Completed, LedsManager.current_color lm,
                    [RampThread.PrintRamping (LedsManager.current_color lm) target;
                     RampThread.set_leds cfg target])).
  { subst x th. unfold RampThread.run.
    cbn [RampThread.current_color RampThread.target_color RampThread.duration_s].
    destruct target as [[tr tg] tb].
    destruct (LedsManager.current_color lm) as [[sr sg] sb].
    cbn [RampThread.run_loop]. now rewrite Hle. }
  repeat split.
  - unfold LedsManager.ramp. cbn [snd]. now rewrite last_snoc.
  - exact Hx.
  - rewrite Hx. cbn [snd]. unfold RampThread.colors_written. cbn.
    now rewrite RampFacts.written_set_leds.
Qed.

Lemma ramp_zero_duration_snaps_witness :
  RampThread.colors_written
    (snd (RampThread.run default_config
            {| RampThread.current_color := (0, 0, 0)%Z;
               RampThread.target_color := (0, 255, 0)%Z;
               RampThread.duration_s := 0 |}
            100 [(100%Q, false); (1001 # 10, false)]))
  = [(0, 255, 0)%Z].
Proof.
  refine (proj2 (proj2 (proj2
            (ramp_zero_duration_snaps default_config
               {| LedsManager.thread := None;
                  LedsManager.current_color := (0, 0, 0)%Z |}
               (0, 255, 0)%Z 0 100 100 [(1001 # 10, false)] _ _)))).
  - reflexivity.
  - unfold Qle. cbn. lia.
Defined.

(** C7 as stated does not hold: [time()] is the wall clock, and when its
    first reading in the loop is below the reading taken at the start (here
    99 after 100) a ramp of duration zero that is not stopped does not
    complete: it goes into [ease], whose division raises
    [ZeroDivisionError], and writes nothing. *)
Lemma ramp_zero_duration_clock_backwards :
  ~ (forall (cfg : Config) (lm : LedsManager.t) (target : color)
            (t0 now : Q) (rest : list (Q * bool)),
        let th := {| RampThread.current_color := LedsManager.current_color lm;
                     RampThread.target_color := target;
                     RampThread.duration_s := 0 |} in
        fst (fst (RampThread.run cfg th t0 ((now, false) :: rest)))
        = RampThread.Completed).
Proof.
  intros H.
  specialize (H default_config
                {| LedsManager.thread := None;
                   LedsManager.current_color := (0, 0, 0)%Z |}
                (0, 255, 0)%Z 100%Q 99%Q []).
  vm_compute in H. discriminate.
Qed.

Example run_duration_zero_clock_below_start :
  RampThread.run default_config
    {| RampThread.current_color := (0, 0, 0)%Z;
       RampThread.target_color := (0, 255, 0)%Z;
       RampThread.duration_s := 0 |}
    100 [(99%Q, false)]
  = (RampThread.Died ZeroDivisionError, (0, 0, 0)%Z,
     [RampThread.PrintRamping (0, 0, 0)%Z (0, 255, 0)%Z]).
Proof. reflexivity. Qed.

(** C8. A ramp that is allowed to run to completion: not stopped, through
    readings of the clock below its duration and then one at or above it.
    The run ends there, its status is [Completed], it has written once per
    earlier reading and then the exact target, which is its last write;
    later readings are not looked at.  And on any readings at all, a run
    that ends with [Completed] has the target as its last write. *)
Theorem run_completes_on_target
    (cfg : Config) (th : RampThread.t) (t0 now : Q)
    (pre rest : list (Q * bool)) :
  Forall (fun o => snd o = false /\ (t0 <= fst o)%Q
                   /\ (fst o - t0 < RampThread.duration_s th)%Q) pre ->
  (RampThread.duration_s th <= now - t0)%Q ->
  let x := RampThread.run cfg th t0 (pre ++ (now, false) :: rest) in
  fst (fst x) = RampThread.Completed
  /\ last (RampThread.colors_written (snd x)) = Some (RampThread.target_color th)
  /\ last (snd x) = Some (RampThread.set_leds cfg (RampThread.target_color th))
  /\ length (RampThread.colors_written (snd x)) = S (length pre)
  /\ x = RampThread.run cfg th t0 (pre ++ [(now, false)])
  /\ (forall obs : list (Q * bool),
        fst (fst (RampThread.run cfg th t0 obs)) = RampThread.Completed ->
        last (RampThread.colors_written (snd (RampThread.run cfg th t0 obs)))
        = Some (RampThread.target_color th)).
Proof.
  intros Hpre Hnow x. subst x.
  assert (Hany : forall obs : list (Q * bool),
             fst (fst (RampThread.run cfg th t0 obs)) = RampThread.Completed ->
             last (RampThread.colors_written
                     (snd (RampThread.run cfg th t0 obs)))
             = Some (RampThread.target_color th)).
  { intros obs. unfold RampThread.run.
    destruct (RampThread.target_color th) as [[tr tg] tb].
    destruct (RampThread.current_color th) as [[sr sg] sb].
    pose proof (RampFacts.run_loop_completed_last cfg (sr, sg, sb)
                  ((tr - sr)%Z, (tg - sg)%Z, (tb - sb)%Z) (tr, tg, tb)
                  (RampThread.duration_s th) t0 obs (sr, sg, sb)) as H.
    destruct (RampThread.run_loop cfg (sr, sg, sb) _ (tr, tg, tb)
                (RampThread.duration_s th) t0 (sr, sg, sb) obs)
      as [[st fin] out].
    cbn [fst snd] in *. intros Hst. specialize (H Hst).
    unfold RampThread.colors_written in *. cbn. exact H. }
  revert Hany. unfold RampThread.run.
  destruct (RampThread.target_color th) as [[tr tg] tb] eqn:Etarget.
  destruct (RampThread.current_color th) as [[sr sg] sb] eqn:Estart.
  set (diff := ((tr - sr)%Z, (tg - sg)%Z, (tb - sb)%Z)).
  destruct (RampFacts.run_loop_completes cfg (sr, sg, sb) diff (tr, tg, tb)
              (RampThread.duration_s th) t0 now pre Hpre Hnow (sr, sg, sb))
    as [fin [cols [Hlen Hrun]]].
  intros Hany.
  rewrite !Hrun. cbn [fst snd].
  change (?o :: ?out ++ ?l) with (([o] ++ out) ++ l).
  rewrite RampFacts.colors_written_app, !last_snoc.
  rewrite RampFacts.colors_written_app, RampFacts.colors_written_set_leds.
  unfold RampThread.colors_written at 1 2 3. cbn [omap list_omap].
  rewrite RampFacts.written_set_leds. cbn [RampThread.written_color app].
  rewrite last_snoc, length_app, Hlen. cbn [length].
  repeat split; try reflexivity; try exact Hany.
  unfold RampThread.colors_written, RampThread.set_leds.
  destruct (has_leds cfg); cbn; lia.
Qed.

Lemma run_completes_on_target_witness :
  last (RampThread.colors_written
          (snd (RampThread.run default_config
                  {| RampThread.current_color := (0, 0, 0)%Z;
                     RampThread.target_color := (0, 255, 0)%Z;
                     RampThread.duration_s := 6 # 10 |}
                  100 ([(100%Q, false); (1003 # 10, false)]
                       ++ (1006 # 10, false) :: [(1008 # 10, false)]))))
  = Some (0, 255, 0)%Z.
Proof.
  refine (proj1 (proj2
            (run_completes_on_target default_config
               {| RampThread.current_color := (0, 0, 0)%Z;
                  RampThread.target_color := (0, 255, 0)%Z;
                  RampThread.duration_s := 6 # 10 |}
               100 (1006 # 10) [(100%Q, false); (1003 # 10, false)]
               [(1008 # 10, false)] _ _))).
  - repeat constructor; unfold Qle, Qlt; cbn; lia.
  - unfold Qle. cbn. lia.
Defined.

Example run_ramp_trace :
  RampThread.run default_config
    {| RampThread.current_color := (0, 0, 0)%Z;
       RampThread.target_color := (0, 255, 0)%Z;
       RampThread.duration_s := 6 # 10 |}
    100 [(100%Q, false); (1003 # 10, false); (1006 # 10, false)]
  = (RampThread.Completed, (0, 31, 0)%Z,
     [RampThread.PrintRamping (0, 0, 0)%Z (0, 255, 0)%Z;
      RampThread.PrintSettingLeds (0, 0, 0)%Z;
      RampThread.PrintSettingLeds (0, 31, 0)%Z;
      RampThread.PrintSettingLeds (0, 255, 0)%Z]).
Proof. reflexivity. Qed.

(** ** Reachable states of the manager *)

Module InvariantFacts.
Import TapManager TapFacts SessionFacts.

Lemma fresh_handle_valid (cfg : Config) : handle_valid (fst (init cfg)) = true.
Proof. reflexivity. Qed.

(** [read_line] keeps the handle inside the store. *)
Lemma read_line_handle_valid (cfg : Config) (w : world) (line : string) (s : t) :
  handle_valid s = true ->
  handle_valid (state_of (read_line cfg w line s)) = true.
Proof.
  intros Hv.
  assert (Hreset : forall s0,
             handle_valid (state_of (_reset_tap_off_timer cfg s0)) = true).
  { intros s0. rewrite reset_run. cbv zeta. unfold handle_valid.
    cbn [state_of fst snd tap_off_timer timers upd_tap_off_timer upd_timers].
    apply Nat.ltb_lt. rewrite length_app. cbn. lia. }
  assert (Hon : forall s0, handle_valid (state_of (tap_on cfg w s0))
                           = handle_valid s0).
  { intros s0. destruct (tap_on_state cfg w s0) as [_ [Ht [Hh _]]].
    unfold handle_valid. now rewrite Ht, Hh. }
  destruct (id_differs (_byte_string_to_lens_id s line) (last_id s)) eqn:Hd.
  - destruct (match tap_off_timer s with
              | Some h => is_alive s h
              | None => false
              end) eqn:Ha.
    + destruct (tap_off_timer s) as [h|] eqn:Ht; [|discriminate].
      rewrite (read_line_switch cfg w line s h Ht Ha Hd).
      destruct (result_of (tap_on cfg w _)); cbn [state_of fst snd];
        [apply Hreset|].
      unfold state_of in *. rewrite Hon.
      destruct (tap_off_state cfg (cancelled h s)) as [_ [Htm [Hh _]]].
      destruct (cancelled_frame h s) as [_ [_ Hc]].
      unfold handle_valid, state_of in *.
      cbn [tap_off_timer timers upd_last_id].
      rewrite Htm, Hh, Hc, Ht, cancelled_length. now rewrite Ht in Hv.
    + rewrite (read_line_start cfg w line s Ha Hd).
      destruct (result_of (tap_on cfg w _)); cbn [state_of fst snd];
        [apply Hreset|].
      unfold state_of in *. now rewrite Hon.
  - rewrite (read_line_same cfg w line s Hd). apply Hreset.
Qed.

(** The debounce timer fires: one tap-off, for the identifier that was
    present; the session is over and the timer is no longer alive. *)
Lemma timer_fires_taps_off (cfg : Config) (s : t) (h : nat) :
  is_alive s h = true ->
  let x := timer_fires cfg h s in
  result_of x = Ret tt
  /\ actions (trace_of x) = [TapOff (last_id s)]
  /\ notified (trace_of x) = []
  /\ last_id (state_of x) = None
  /\ is_alive (state_of x) h = false.
Proof.
  intros Ha. cbv zeta.
  assert (Hrun : timer_fires cfg h s
                 = (Ret tt,
                    upd_timers (<[h := Fired]> (timers s))
                               (state_of (tap_off cfg s)),
                    trace_of (tap_off cfg s))).
  { unfold timer_fires, bind, get, set_timers, modify. cbn beta iota.
    rewrite Ha, tap_off_run. cbn [state_of trace_of fst snd app timers upd_leds upd_last_id].
    now rewrite app_nil_r. }
  rewrite Hrun. cbn [result_of state_of trace_of fst snd].
  destruct (tap_off_actions cfg s) as [Hoa Hon].
  destruct (tap_off_state cfg s) as [Hid _].
  unfold trace_of, state_of in *.
  repeat split; try assumption.
  apply is_alive_pending in Ha. apply lookup_lt_Some in Ha as Hlt.
  unfold is_alive. cbn [timers upd_timers].
  now rewrite list_lookup_insert_eq.
Qed.

End InvariantFacts.


(** An exception outside the class that [send_tap] catches leaves
    [send_tap], [read_line] and the loop of [main]. *)
Example send_tap_other_exception_escapes :
  let w := {| TapManager.now_iso := "2021-03-01T10:00:00+11:00";
              TapManager.post_result :=
                TapManager.PostRaises
                  (OtherException "ChunkedEncodingError" "Connection broken") |} in
  TapManager.result_of
    (TapManager.main_loop default_config
       [(w, "04:AA:BB:CC"); (delivered, "04:AA:BB:CC")] fresh)
  = Raise (OtherException "ChunkedEncodingError" "Connection broken")
  /\ TapManager.trace_of (TapManager.send_tap default_config w (Some "aabbcc") fresh)
     = [EvPost "http://localhost:8888"
          {| uid := Some "aabbcc";
             tap_datetime := "2021-03-01T10:00:00+11:00";
             label := None;
             mac_address := "b8:27:eb:00:00:01";
             reader_ip := "192.168.1.17";
             reader_model := None;
             reader_name := "nfc-17" |} "Token "].
Proof. split; reflexivity. Qed.

(** The scenario of the specification: the same line three times, then
    silence until the timer fires. *)
Example scenario_three_lines_then_silence :
  let x := TapManager.main_loop default_config
             [(delivered, "04:AA:BB:CC:DD:EE:FF:01");
              (delivered, "04:AA:BB:CC:DD:EE:FF:01");
              (delivered, "04:AA:BB:CC:DD:EE:FF:01")] fresh in
  let y := TapManager.timer_fires default_config 2 (TapManager.state_of x) in
  TapManager.actions (TapManager.trace_of x ++ TapManager.trace_of y)
  = [TapManager.TapOn (Some "aabbccddeeff01");
     TapManager.TapOff (Some "aabbccddeeff01")]
  /\ TapManager.notified (TapManager.trace_of x ++ TapManager.trace_of y)
     = [Some "aabbccddeeff01"]
  /\ TapManager.last_id (TapManager.state_of y) = None.
Proof. vm_compute. auto. Qed.

(** The scenario of the specification: the endpoint answers with a status
    other than 201.  The answer is logged and reported as a message; the
    session and the LEDs are as after a delivered notification. *)
Example scenario_rejected :
  let x := TapManager.read_line default_config rejected "04:AA:BB:CC" fresh in
  let y := TapManager.read_line default_config delivered "04:AA:BB:CC" fresh in
  TapManager.result_of x = Ret tt
  /\ TapManager.state_of x = TapManager.state_of y
  /\ TapManager.last_id (TapManager.state_of x) = Some "aabbcc"
  /\ TapManager.ramps (TapManager.trace_of x) = [(0, 255, 0)%Z]
  /\ In (EvSentryMessage "bad request") (TapManager.trace_of x).
Proof. vm_compute. intuition. Qed.

(** * Further properties *)

(** ** The normaliser on arbitrary lines *)

Module NormalizeMore.
Import Py PyFacts.

Lemma lstrip_spaces (ws : string) :
  all_chars isspace ws = true -> lstrip ws = "".
Proof.
  induction ws as [|c ws IH]; simpl; [reflexivity|].
  intros H. apply andb_true_iff in H as [Hc Hws]. now rewrite Hc, IH.
Qed.

Lemma strip_app_spaces (s ws : string) :
  all_chars isspace ws = true -> rstrip (lstrip (s ++ ws)) = rstrip (lstrip s).
Proof.
  intros Hws. induction s as [|c s IH].
  - simpl. now rewrite lstrip_spaces.
  - simpl. destruct (isspace c); [exact IH|].
    change (String c (s ++ ws)) with (String c s ++ ws)%string.
    now apply rstrip_app_spaces.
Qed.

(** Whitespace around a line does not count. *)
Lemma strip_padding (ws1 s ws2 : string) :
  all_chars isspace ws1 = true ->
  all_chars isspace ws2 = true ->
  strip (ws1 ++ s ++ ws2) = strip s.
Proof.
  intros H1 H2. unfold strip.
  rewrite lstrip_spaces_app by assumption.
  now apply strip_app_spaces.
Qed.

Lemma isspace_lower (c : ascii) : isspace (lower_char c) = isspace c.
Proof. destruct c as [[] [] [] [] [] [] [] []]; reflexivity. Qed.

Lemma colon_lower (c : ascii) :
  Ascii.eqb (lower_char c) ":" = Ascii.eqb c ":".
Proof. destruct c as [[] [] [] [] [] [] [] []]; reflexivity. Qed.

Lemma lstrip_lower (s : string) : lstrip (lower s) = lower (lstrip s).
Proof.
  induction s as [|c s IH]; simpl; [reflexivity|].
  rewrite isspace_lower. now destruct (isspace c).
Qed.

Lemma rstrip_lower (s : string) : rstrip (lower s) = lower (rstrip s).
Proof.
  induction s as [|c s IH]; simpl; [reflexivity|].
  rewrite IH, isspace_lower.
  destruct (rstrip s); simpl; [now destruct (isspace c) | reflexivity].
Qed.

Lemma split_lower (s : string) :
  split ":" (lower s) = map lower (split ":" s).
Proof.
  induction s as [|c s IH]; simpl; [reflexivity|].
  rewrite colon_lower, IH.
  destruct (Ascii.eqb c ":"); [reflexivity|].
  now destruct (split ":" s).
Qed.

Lemma tl_map {A B} (f : A -> B) (l : list A) : tl (map f l) = map f (tl l).
Proof. now destruct l. Qed.

(** Lowercasing can be done first: the identifier is a function of the
    lowercased line. *)
Lemma normalize_of_lower (raw : string) :
  byte_string_to_lens_id raw
  = join "" (slice_from_1 (split ":" (strip (lower raw)))).
Proof.
  unfold byte_string_to_lens_id, strip, slice_from_1.
  now rewrite lstrip_lower, rstrip_lower, split_lower, tl_map, lower_join_nil.
Qed.

Lemma rstrip_no_space_app (g s : string) :
  all_chars no_space g = true -> rstrip (g ++ s) = (g ++ rstrip s)%string.
Proof.
  induction g as [|c g IH]; simpl; [reflexivity|].
  intros H. apply andb_true_iff in H as [Hc Hg].
  unfold no_space in Hc. apply negb_true_iff in Hc.
  rewrite (IH Hg). destruct (g ++ rstrip s)%string; [now rewrite Hc | reflexivity].
Qed.

Lemma lstrip_no_space_head (g rest : string) :
  all_chars no_space g = true ->
  lstrip (g ++ String ":" rest) = (g ++ String ":" rest)%string.
Proof.
  destruct g as [|c g]; simpl; [reflexivity|].
  intros H. apply andb_true_iff in H as [Hc _].
  unfold no_space in Hc. apply negb_true_iff in Hc. now rewrite Hc.
Qed.

(** The identifier of [g ++ ":" ++ rest] for a first group [g] without
    whitespace or colon: [g] is gone. *)
Lemma normalize_first_group (g rest : string) :
  all_chars no_space g = true ->
  all_chars (not_sep ":") g = true ->
  byte_string_to_lens_id (g ++ String ":" rest)
  = lower (join "" (split ":" (rstrip rest))).
Proof.
  intros Hs Hc. unfold byte_string_to_lens_id, strip.
  rewrite lstrip_no_space_head by assumption.
  change (g ++ String ":" rest)%string with (g ++ (String ":" "" ++ rest))%string.
  rewrite <- append_assoc, rstrip_no_space_app.
  - rewrite append_assoc. change (String ":" "" ++ rstrip rest)%string
      with (String ":" (rstrip rest)).
    now rewrite split_group_sep.
  - rewrite all_chars_app, Hs. reflexivity.
Qed.

Lemma all_chars_lstrip (p : ascii -> bool) (s : string) :
  all_chars p s = true -> all_chars p (lstrip s) = true.
Proof.
  induction s as [|c s IH]; simpl; [reflexivity|].
  intros H. destruct (isspace c); [|exact H].
  apply andb_true_iff in H as [_ H]. now apply IH.
Qed.

Lemma all_chars_rstrip (p : ascii -> bool) (s : string) :
  all_chars p s = true -> all_chars p (rstrip s) = true.
Proof.
  induction s as [|c s IH]; simpl; [reflexivity|].
  intros H. apply andb_true_iff in H as [Hc Hs]. specialize (IH Hs).
  destruct (rstrip s).
  - destruct (isspace c); simpl; [reflexivity | now rewrite Hc].
  - simpl in *. now rewrite Hc, IH.
Qed.

End NormalizeMore.

(** X1. Whitespace before and after a line, such as the newline that
    [readline] leaves, has no influence on the identifier. *)
Theorem normalize_ignores_padding
    (self : TapManager.t) (ws1 raw ws2 : string) :
  all_chars Py.isspace ws1 = true ->
  all_chars Py.isspace ws2 = true ->
  TapManager._byte_string_to_lens_id self (ws1 ++ raw ++ ws2)
  = TapManager._byte_string_to_lens_id self raw.
Proof.
  intros H1 H2. unfold TapManager._byte_string_to_lens_id.
  now rewrite NormalizeMore.strip_padding.
Qed.

Lemma normalize_ignores_padding_witness :
  TapManager._byte_string_to_lens_id fresh
    ((String "009" " ") ++ "04:aa:BB" ++ (String "013" (String "010" "")))
  = TapManager._byte_string_to_lens_id fresh "04:aa:BB".
Proof.
  exact (normalize_ignores_padding fresh (String "009" " ") "04:aa:BB"
           (String "013" (String "010" "")) eq_refl eq_refl).
Defined.

(** X2. For lines made of code points below 256, as the lines of ASCII
    text that the reader prints are: two lines with the same lowercase form
    have the same identifier, so the manager sees the same tag. *)
Theorem normalize_case_insensitive (self : TapManager.t) (raw1 raw2 : string) :
  Py.lower raw1 = Py.lower raw2 ->
  TapManager._byte_string_to_lens_id self raw1
  = TapManager._byte_string_to_lens_id self raw2.
Proof.
  intros H. change (byte_string_to_lens_id raw1 = byte_string_to_lens_id raw2).
  now rewrite !NormalizeMore.normalize_of_lower, H.
Qed.

Lemma normalize_case_insensitive_witness :
  TapManager._byte_string_to_lens_id fresh "04:A5:2c:F2"
  = TapManager._byte_string_to_lens_id fresh "04:a5:2C:f2".
Proof.
  exact (normalize_case_insensitive fresh "04:A5:2c:F2" "04:a5:2C:f2" eq_refl).
Defined.

(** X3. The first colon-delimited group is dropped whatever it holds: two
    lines that differ only in a first group without whitespace or colon
    have the same identifier, which is made of what follows the first
    colon. *)
Theorem normalize_drops_first_group
    (self : TapManager.t) (g1 g2 rest : string) :
  all_chars Py.no_space g1 = true ->
  all_chars (Py.not_sep ":") g1 = true ->
  all_chars Py.no_space g2 = true ->
  all_chars (Py.not_sep ":") g2 = true ->
  TapManager._byte_string_to_lens_id self (g1 ++ String ":" rest)
  = TapManager._byte_string_to_lens_id self (g2 ++ String ":" rest)
  /\ TapManager._byte_string_to_lens_id self (g1 ++ String ":" rest)
     = Py.lower (Py.join "" (Py.split ":" (Py.rstrip rest))).
Proof.
  intros Hs1 Hc1 Hs2 Hc2.
  change (byte_string_to_lens_id (g1 ++ String ":" rest)
          = byte_string_to_lens_id (g2 ++ String ":" rest)
          /\ byte_string_to_lens_id (g1 ++ String ":" rest)
             = Py.lower (Py.join "" (Py.split ":" (Py.rstrip rest)))).
  now rewrite !NormalizeMore.normalize_first_group.
Qed.

Lemma normalize_drops_first_group_witness :
  TapManager._byte_string_to_lens_id fresh ("04" ++ String ":" "A5:2C")
  = TapManager._byte_string_to_lens_id fresh ("reader-7" ++ String ":" "A5:2C").
Proof.
  exact (proj1 (normalize_drops_first_group fresh "04" "reader-7" "A5:2C"
                  eq_refl eq_refl eq_refl eq_refl)).
Defined.

(** ** One call of [read_line], in all cases *)

Module StepFacts.
Import TapManager TapFacts SessionFacts LoopFacts OutcomeFacts System.

Lemma session_armed_alive (s : t) (h : nat) :
  tap_off_timer s = Some h -> session_armed s = is_alive s h.
Proof. unfold session_armed. now intros ->. Qed.

(** The tap actions and the notifications of a call, whatever becomes of
    the request. *)
Lemma read_line_actions (cfg : Config) (w : world) (line : string) (s : t) :
  let id := _byte_string_to_lens_id s line in
  let x := read_line cfg w line s in
  actions (trace_of x)
  = (if id_differs id (last_id s)
     then (if session_armed s then [TapOff (last_id s)] else [])
          ++ [TapOn (Some id)]
     else [])
  /\ notified (trace_of x)
     = (if id_differs id (last_id s) then [Some id] else []).
Proof.
  cbv zeta.
  destruct (id_differs (_byte_string_to_lens_id s line) (last_id s)) eqn:Hd.
  - destruct (session_armed s) eqn:Ha.
    + unfold session_armed in Ha.
      destruct (tap_off_timer s) as [h|] eqn:Ht; [|discriminate].
      rewrite (read_line_switch cfg w line s h Ht Ha Hd).
      set (s3 := upd_last_id _ _).
      destruct (tap_off_actions cfg (cancelled h s)) as [Hoa Hon].
      destruct (tap_on_actions cfg w s3) as [Hna Hnn].
      destruct (reset_actions cfg (state_of (tap_on cfg w s3))) as [Hra [Hrn _]].
      destruct (cancelled_frame h s) as [Hcl _].
      destruct (result_of (tap_on cfg w s3)) as [[]|e];
        cbn [trace_of snd];
        change (actions (?e :: ?tr)) with (actions ([e] ++ tr));
        change (notified (?e :: ?tr)) with (notified ([e] ++ tr));
        rewrite !actions_app, !notified_app;
        unfold trace_of in *; rewrite ?Hra, ?Hrn, Hoa, Hon, Hna, Hnn, Hcl;
        now split.
    + rewrite (read_line_start cfg w line s Ha Hd).
      set (s3 := upd_last_id _ _).
      destruct (tap_on_actions cfg w s3) as [Hna Hnn].
      destruct (reset_actions cfg (state_of (tap_on cfg w s3))) as [Hra [Hrn _]].
      destruct (result_of (tap_on cfg w s3)) as [[]|e];
        cbn [trace_of snd];
        rewrite ?actions_app, ?notified_app;
        unfold trace_of in *; rewrite ?Hra, ?Hrn, Hna, Hnn;
        now split.
  - rewrite (read_line_same cfg w line s Hd).
    now destruct (reset_actions cfg s) as [Hra [Hrn _]].
Qed.

Lemma cancelled_idem_timers (h : nat) (s s' : t) :
  timers s' = timers (cancelled h s) ->
  timers (cancelled h s') = timers (cancelled h s).
Proof.
  intros E. unfold cancelled at 1.
  rewrite (is_alive_timers s' (cancelled h s) h E), cancelled_not_alive.
  exact E.
Qed.

Lemma reset_timers (cfg : Config) (s : t) :
  timers (state_of (_reset_tap_off_timer cfg s))
  = timers (cancel_current s) ++ [Pending].
Proof.
  rewrite reset_run. unfold cancel_current.
  now destruct (tap_off_timer s).
Qed.

(** The timers after a call that returns: the manager's old timer is
    cancelled, a new pending one is appended and is the manager's. *)
Lemma read_line_timers (cfg : Config) (w : world) (line : string) (s : t) :
  handled (post_result w) = true ->
  let x := read_line cfg w line s in
  timers (state_of x) = timers (cancel_current s) ++ [Pending]
  /\ tap_off_timer (state_of x) = Some (length (timers s)).
Proof.
  intros Hh. cbv zeta.
  assert (Hlen : length (timers (cancel_current s)) = length (timers s)).
  { unfold cancel_current. destruct (tap_off_timer s); [|reflexivity].
    apply cancelled_length. }
  assert (Hgen : forall s4,
             timers (cancel_current s4) = timers (cancel_current s) ->
             timers (state_of (_reset_tap_off_timer cfg s4))
             = timers (cancel_current s) ++ [Pending]
             /\ tap_off_timer (state_of (_reset_tap_off_timer cfg s4))
                = Some (length (timers s))).
  { intros s4 E. rewrite reset_timers, E. split; [reflexivity|].
    destruct (reset_rearms cfg s4) as [Hh4 _].
    cbv zeta in Hh4. rewrite Hh4. f_equal.
    rewrite <- Hlen, <- E. unfold cancel_current.
    destruct (tap_off_timer s4); [|reflexivity].
    now rewrite cancelled_length. }
  destruct (id_differs (_byte_string_to_lens_id s line) (last_id s)) eqn:Hd.
  - destruct (session_armed s) eqn:Ha.
    + unfold session_armed in Ha.
      destruct (tap_off_timer s) as [h|] eqn:Ht; [|discriminate].
      rewrite (read_line_switch cfg w line s h Ht Ha Hd).
      set (s3 := upd_last_id _ _).
      rewrite (tap_on_handled cfg w s3 Hh). cbn [state_of fst snd].
      apply Hgen.
      destruct (tap_on_state cfg w s3) as [_ [Htm [Hth _]]].
      destruct (tap_off_state cfg (cancelled h s)) as [_ [Hotm [Hoh _]]].
      destruct (cancelled_frame h s) as [_ [_ Hct]].
      unfold cancel_current, state_of in *. rewrite Hth, Ht.
      subst s3. cbn [tap_off_timer upd_last_id]. rewrite Hoh, Hct, Ht.
      apply cancelled_idem_timers. rewrite Htm.
      cbn [timers upd_last_id]. exact Hotm.
    + rewrite (read_line_start cfg w line s Ha Hd).
      set (s3 := upd_last_id _ _).
      rewrite (tap_on_handled cfg w s3 Hh). cbn [state_of fst snd].
      apply Hgen.
      destruct (tap_on_state cfg w s3) as [_ [Htm [Hth _]]].
      unfold cancel_current, state_of in *. rewrite Hth.
      subst s3. cbn [tap_off_timer upd_last_id].
      destruct (tap_off_timer s) as [h|] eqn:Ht.
      * unfold cancelled.
        rewrite (is_alive_timers _ s h) by (rewrite Htm; reflexivity).
        unfold session_armed in Ha. rewrite Ht in Ha. rewrite Ha.
        rewrite Htm. reflexivity.
      * rewrite Htm. reflexivity.
  - rewrite (read_line_same cfg w line s Hd). now apply Hgen.
Qed.

End StepFacts.

(** ** Runs of the system *)

Module RunFacts.
Import TapManager TapFacts SessionFacts LoopFacts OutcomeFacts System StepFacts.

Lemma timer_fires_run (cfg : Config) (h : nat) (s : t) :
  timer_fires cfg h s
  = if is_alive s h
    then (Ret tt,
          upd_timers (<[h := Fired]> (timers s)) (state_of (tap_off cfg s)),
          trace_of (tap_off cfg s))
    else (Ret tt, s, []).
Proof.
  unfold timer_fires, bind, get, set_timers, modify. cbn beta iota.
  destruct (is_alive s h); [|reflexivity].
  rewrite tap_off_run.
  cbn [state_of trace_of fst snd app timers upd_leds upd_last_id].
  now rewrite app_nil_r.
Qed.

Lemma consistent_fresh (cfg : Config) : consistent (fst (init cfg)).
Proof.
  repeat split. intros h. unfold is_alive. cbn. now rewrite lookup_nil.
Qed.

Lemma cancel_current_length (s : t) :
  length (timers (cancel_current s)) = length (timers s).
Proof.
  unfold cancel_current. destruct (tap_off_timer s); [|reflexivity].
  apply cancelled_length.
Qed.

(** Once the manager's timer is cancelled no timer is pending. *)
Lemma cancel_current_none_alive (s : t) (h' : nat) :
  consistent s -> is_alive (cancel_current s) h' = false.
Proof.
  intros [Hone _]. unfold cancel_current.
  destruct (tap_off_timer s) as [h|] eqn:Ht.
  - destruct (decide (h' = h)) as [->|Hne]; [apply cancelled_not_alive|].
    destruct (is_alive (cancelled h s) h') eqn:Ha; [|reflexivity].
    assert (Hs : is_alive s h' = true).
    { unfold cancelled in Ha. destruct (is_alive s h); [|exact Ha].
      unfold is_alive in *. cbn [timers upd_timers] in Ha.
      now rewrite list_lookup_insert_ne in Ha by congruence. }
    apply Hone in Hs. congruence.
  - destruct (is_alive s h') eqn:Ha; [|reflexivity].
    apply Hone in Ha. congruence.
Qed.

Lemma read_line_consistent (cfg : Config) (w : world) (line : string) (s : t) :
  handled (post_result w) = true ->
  consistent s ->
  consistent (state_of (read_line cfg w line s)).
Proof.
  intros Hh Hc.
  destruct (read_line_timers cfg w line s Hh) as [Htm Hth].
  pose proof (read_line_last_id cfg w line s) as Hid.
  pose proof (cancel_current_length s) as Hlen.
  set (s' := state_of (read_line cfg w line s)) in *.
  assert (Hnew : is_alive s' (length (timers s)) = true).
  { unfold is_alive. rewrite Htm, lookup_app_r by lia.
    now rewrite Hlen, Nat.sub_diag. }
  repeat split.
  - intros h' Ha. rewrite Hth. f_equal.
    destruct (decide (h' < length (timers s))) as [Hlt|Hge].
    + exfalso. pose proof (cancel_current_none_alive s h' Hc) as Hn.
      unfold is_alive in Ha, Hn. rewrite Htm, lookup_app_l in Ha by lia.
      rewrite Ha in Hn. discriminate.
    + apply is_alive_pending, lookup_lt_Some in Ha.
      rewrite Htm, length_app, Hlen in Ha. cbn in Ha. lia.
  - unfold session_armed. now rewrite Hth, Hnew, Hid.
  - unfold handle_valid. rewrite Hth. apply Nat.ltb_lt.
    rewrite Htm, length_app, Hlen. cbn. lia.
Qed.

Lemma timer_fires_consistent (cfg : Config) (h : nat) (s : t) :
  consistent s -> consistent (state_of (timer_fires cfg h s)).
Proof.
  intros Hc. rewrite timer_fires_run.
  destruct (is_alive s h) eqn:Ha; [|exact Hc].
  destruct Hc as [Hone [Harm Hv]].
  pose proof (Hone h Ha) as Ht.
  apply is_alive_pending in Ha as Hp. apply lookup_lt_Some in Hp as Hlt.
  cbn [state_of fst snd]. rewrite tap_off_run. cbn [state_of fst snd].
  assert (Hdead : forall h', is_alive
            (upd_timers (<[h:=Fired]> (timers s))
               (upd_leds (fst (LedsManager.success_off cfg (leds s)))
                  (upd_last_id None s))) h' = false).
  { intros h'. unfold is_alive. cbn [timers upd_timers upd_leds upd_last_id].
    destruct (decide (h' = h)) as [->|Hne].
    - now rewrite list_lookup_insert_eq.
    - rewrite list_lookup_insert_ne by congruence.
      destruct (timers s !! h') as [[]|] eqn:El; try reflexivity.
      assert (Ha' : is_alive s h' = true) by now apply is_alive_pending.
      apply Hone in Ha'. congruence. }
  repeat split.
  - intros h' Ha'. now rewrite Hdead in Ha'.
  - unfold session_armed.
    cbn [tap_off_timer last_id upd_timers upd_leds upd_last_id].
    rewrite Ht. apply Hdead.
  - unfold handle_valid in *.
    cbn [tap_off_timer timers upd_timers upd_leds upd_last_id].
    rewrite Ht in *. now rewrite length_insert.
Qed.

Lemma main_step_read_line (cfg : Config) (w : world) (line : string) (s : t) :
  main_step cfg w line s
  = if starts_with_hex_pair line then read_line cfg w line s else (Ret tt, s, []).
Proof.
  unfold main_step. rewrite ReFacts.byte_string_re_match.
  now destruct (starts_with_hex_pair line).
Qed.

Lemma replay_app (open : option string) (a b : list action) :
  replay open (a ++ b)
  = match replay open a with
    | Some open' => replay open' b
    | None => None
    end.
Proof.
  revert open. induction a as [|[[id|]|[id|]] a IH]; intros open; cbn;
    try reflexivity.
  - destruct open; [reflexivity | apply IH].
  - destruct open as [id'|]; [|reflexivity].
    destruct (String.eqb id id'); [apply IH | reflexivity].
Qed.

Lemma tap_on_ids_app (a b : list action) :
  tap_on_ids (a ++ b) = tap_on_ids a ++ tap_on_ids b.
Proof. apply omap_app. Qed.

(** One input from a consistent state. *)
Lemma step_sessions (cfg : Config) (i : input) (s : t) :
  input_handled i = true ->
  consistent s ->
  let x := step cfg i s in
  result_of x = Ret tt
  /\ consistent (state_of x)
  /\ replay (last_id s) (actions (trace_of x)) = Some (last_id (state_of x))
  /\ notified (trace_of x) = tap_on_ids (actions (trace_of x)).
Proof.
  intros Hh Hc. cbv zeta. destruct i as [w line|h]; cbn [step input_handled] in *.
  - rewrite main_step_read_line.
    destruct (starts_with_hex_pair line);
      [|repeat (split; [first [reflexivity | exact Hc]|]); reflexivity].
    destruct (read_line_actions cfg w line s) as [Ha Hn].
    pose proof (read_line_last_id cfg w line s) as Hid.
    split; [now apply read_line_handled|].
    split; [now apply read_line_consistent|].
    rewrite Ha, Hn, Hid. destruct Hc as [_ [Harm _]].
    destruct (id_differs (_byte_string_to_lens_id s line) (last_id s)) eqn:Hd.
    + rewrite Harm. destruct (last_id s) as [prev|]; cbn.
      * now rewrite String.eqb_refl.
      * now split.
    + apply id_same in Hd. now rewrite Hd.
  - rewrite timer_fires_run.
    destruct (is_alive s h) eqn:Ha.
    + split; [reflexivity|].
      split.
      { pose proof (timer_fires_consistent cfg h s Hc) as H.
        now rewrite timer_fires_run, Ha in H. }
      destruct Hc as [Hone [Harm _]]. pose proof (Hone h Ha) as Ht.
      unfold session_armed in Harm. rewrite Ht, Ha in Harm.
      cbn [trace_of state_of fst snd].
      destruct (tap_off_actions cfg s) as [Hoa Hon].
      destruct (tap_off_state cfg s) as [Hid _].
      unfold trace_of, state_of in *. rewrite Hoa, Hon.
      cbn [last_id upd_timers]. rewrite Hid.
      destruct (last_id s) as [prev|]; [|discriminate].
      cbn. now rewrite String.eqb_refl.
    + repeat (split; [first [reflexivity | exact Hc]|]); reflexivity.
Qed.

(** Any run on handled inputs from a consistent state. *)
Lemma run_sessions (cfg : Config) (inputs : list input) :
  forall s : t,
    forallb input_handled inputs = true ->
    consistent s ->
    let x := serial_run cfg inputs s in
    result_of x = Ret tt
    /\ consistent (state_of x)
    /\ replay (last_id s) (actions (trace_of x)) = Some (last_id (state_of x))
    /\ notified (trace_of x) = tap_on_ids (actions (trace_of x)).
Proof.
  induction inputs as [|i rest IH]; intros s Hh Hc; cbv zeta.
  - repeat (split; [first [reflexivity | exact Hc]|]); reflexivity.
  - cbn [forallb] in Hh. apply andb_true_iff in Hh as [Hi Hrest].
    destruct (step_sessions cfg i s Hi Hc) as [Hr [Hc' [Hp Hn]]].
    destruct (IH (state_of (step cfg i s)) Hrest Hc') as [Hr2 [Hc2 [Hp2 Hn2]]].
    cbn [serial_run]. rewrite bind_projections, Hr.
    cbn [result_of state_of trace_of fst snd].
    unfold result_of, state_of, trace_of in *.
    rewrite actions_app, notified_app, replay_app, tap_on_ids_app, Hp, Hn, Hn2.
    repeat (split; [first [reflexivity | assumption]|]). reflexivity.
Qed.

End RunFacts.

(** ** LED calls of the manager *)

Module LedFacts.
Import TapManager TapFacts SessionFacts LoopFacts OutcomeFacts System StepFacts
       RunFacts.

Lemma ramp_threads_app (a b : list event) :
  ramp_threads (a ++ b) = ramp_threads a ++ ramp_threads b.
Proof. apply omap_app. Qed.

Lemma serial_app (a b : list event) :
  serial a = true -> serial (a ++ b) = serial b.
Proof.
  assert (H : forall n a, length a <= n ->
                serial a = true -> serial (a ++ b) = serial b).
  { induction n as [|n IH]; intros l Hlen Hl.
    - destruct l; [reflexivity | cbn in Hlen; lia].
    - destruct l as [|e1 l]; [reflexivity|].
      destruct e1; try discriminate.
      destruct l as [|e2 l]; [discriminate|]. destruct e2; try discriminate.
      destruct l as [|e3 l]; [discriminate|]. destruct e3; try discriminate.
      cbn in *. apply IH; [lia | exact Hl]. }
  apply (H (length a)). lia.
Qed.

(** What one ramp records, on a manager that already has a thread. *)
Lemma ramp_events (lm : LedsManager.t) (target : color) (d : Q) :
  LedsManager.thread lm <> None ->
  let th := {| RampThread.current_color := LedsManager.current_color lm;
               RampThread.target_color := target;
               RampThread.duration_s := d |} in
  LedsManager.ramp lm target d
  = ({| LedsManager.thread := Some th;
        LedsManager.current_color := LedsManager.current_color lm |},
     [EvRampStop; EvRampJoin; EvRampStart th]).
Proof.
  intros Hth. unfold LedsManager.ramp.
  now destruct (LedsManager.thread lm).
Qed.

Lemma ramp_thread_some (lm : LedsManager.t) (target : color) (d : Q) :
  LedsManager.thread (fst (LedsManager.ramp lm target d)) <> None.
Proof. discriminate. Qed.

Lemma led_ok_nil (cfg : Config) : led_ok cfg [].
Proof. split; [reflexivity | constructor]. Qed.

Lemma led_ok_app (cfg : Config) (a b : list event) :
  led_ok cfg a -> led_ok cfg b -> led_ok cfg (a ++ b).
Proof.
  intros [Sa Fa] [Sb Fb]. split.
  - now rewrite List.filter_app, serial_app.
  - rewrite ramp_threads_app. now apply Forall_app.
Qed.

Lemma led_ok_silent (cfg : Config) (tr : list event) :
  List.filter is_led tr = [] -> led_ok cfg tr.
Proof.
  intros H. split; [now rewrite H|].
  assert (E : ramp_threads tr = []).
  { induction tr as [|e tr IH]; [reflexivity|].
    cbn in H. destruct e; cbn in *; try discriminate; auto. }
  rewrite E. constructor.
Qed.

Lemma tap_off_led_ok (cfg : Config) (s : t) :
  LedsManager.thread (leds s) <> None ->
  led_ok cfg (trace_of (tap_off cfg s))
  /\ LedsManager.thread (leds (state_of (tap_off cfg s))) <> None.
Proof.
  intros Hth. rewrite tap_off_run. cbn [trace_of state_of fst snd].
  unfold LedsManager.success_off.
  rewrite (ramp_events _ _ _ Hth). cbn [fst snd]. split; [|discriminate].
  split; [reflexivity|]. unfold ramp_threads. cbn.
  constructor; [|constructor]. split; [now right | reflexivity].
Qed.

Lemma tap_on_led_ok (cfg : Config) (w : world) (s : t) :
  LedsManager.thread (leds s) <> None ->
  led_ok cfg (trace_of (tap_on cfg w s))
  /\ LedsManager.thread (leds (state_of (tap_on cfg w s))) <> None.
Proof.
  intros Hth. rewrite tap_on_run. cbn [trace_of state_of fst snd].
  split; [|discriminate].
  change (?e :: ?a ++ ?b) with (([e] ++ a) ++ b).
  apply led_ok_app.
  - unfold LedsManager.success_on.
    rewrite (ramp_events _ _ _ Hth). cbn [fst snd].
    split; [reflexivity|]. unfold ramp_threads. cbn.
    constructor; [|constructor]. split; [now left | reflexivity].
  - apply led_ok_silent.
    now destruct (send_tap_trace cfg w (last_id s)
                    (upd_leds (fst (LedsManager.success_on cfg (leds s))) s))
      as [_ [_ [H _]]].
Qed.

Lemma reset_led_ok (cfg : Config) (s : t) :
  led_ok cfg (trace_of (_reset_tap_off_timer cfg s))
  /\ leds (state_of (_reset_tap_off_timer cfg s)) = leds s.
Proof.
  split.
  - apply led_ok_silent. now destruct (reset_actions cfg s) as [_ [_ H]].
  - now destruct (reset_rearms cfg s) as [_ [_ [_ [_ H]]]].
Qed.

Lemma read_line_led_ok (cfg : Config) (w : world) (line : string) (s : t) :
  LedsManager.thread (leds s) <> None ->
  led_ok cfg (trace_of (read_line cfg w line s))
  /\ LedsManager.thread (leds (state_of (read_line cfg w line s))) <> None.
Proof.
  intros Hth.
  destruct (id_differs (_byte_string_to_lens_id s line) (last_id s)) eqn:Hd.
  - destruct (session_armed s) eqn:Ha.
    + unfold session_armed in Ha.
      destruct (tap_off_timer s) as [h|] eqn:Ht; [|discriminate].
      rewrite (read_line_switch cfg w line s h Ht Ha Hd).
      set (s1 := cancelled h s).
      assert (Hth1 : LedsManager.thread (leds s1) <> None).
      { subst s1. now destruct (cancelled_frame h s) as [_ [-> _]]. }
      destruct (tap_off_led_ok cfg s1 Hth1) as [Hoff Hth2].
      set (s3 := upd_last_id _ _).
      assert (Hth3 : LedsManager.thread (leds s3) <> None) by exact Hth2.
      destruct (tap_on_led_ok cfg w s3 Hth3) as [Hon Hth4].
      destruct (reset_led_ok cfg (state_of (tap_on cfg w s3))) as [Hr Hl].
      destruct (result_of (tap_on cfg w s3)) as [[]|e];
        cbn [trace_of state_of fst snd];
        change (?e :: ?a) with ([e] ++ a).
      * split; [|unfold state_of in *; now rewrite Hl].
        apply led_ok_app; [now apply led_ok_silent|].
        apply led_ok_app; [exact Hoff|]. now apply led_ok_app.
      * split; [|exact Hth4].
        apply led_ok_app; [now apply led_ok_silent|].
        now apply led_ok_app.
    + rewrite (read_line_start cfg w line s Ha Hd).
      set (s3 := upd_last_id _ _).
      assert (Hth3 : LedsManager.thread (leds s3) <> None) by exact Hth.
      destruct (tap_on_led_ok cfg w s3 Hth3) as [Hon Hth4].
      destruct (reset_led_ok cfg (state_of (tap_on cfg w s3))) as [Hr Hl].
      destruct (result_of (tap_on cfg w s3)) as [[]|e];
        cbn [trace_of state_of fst snd].
      * split; [|unfold state_of in *; now rewrite Hl].
        now apply led_ok_app.
      * now split.
  - rewrite (read_line_same cfg w line s Hd).
    destruct (reset_led_ok cfg s) as [Hr Hl]. split; [exact Hr|].
    now rewrite Hl.
Qed.

Lemma step_led_ok (cfg : Config) (i : input) (s : t) :
  LedsManager.thread (leds s) <> None ->
  led_ok cfg (trace_of (step cfg i s))
  /\ LedsManager.thread (leds (state_of (step cfg i s))) <> None.
Proof.
  intros Hth. destruct i as [w line|h]; cbn [step].
  - rewrite main_step_read_line.
    destruct (starts_with_hex_pair line);
      [now apply read_line_led_ok | split; [apply led_ok_nil | exact Hth]].
  - rewrite timer_fires_run. destruct (is_alive s h).
    + destruct (tap_off_led_ok cfg s Hth) as [Hoff Hth2]. now split.
    + split; [apply led_ok_nil | exact Hth].
Qed.

Lemma run_led_ok (cfg : Config) (inputs : list input) :
  forall s : t,
    LedsManager.thread (leds s) <> None ->
    led_ok cfg (trace_of (serial_run cfg inputs s)).
Proof.
  induction inputs as [|i rest IH]; intros s Hth; [apply led_ok_nil|].
  destruct (step_led_ok cfg i s Hth) as [Hok Hth'].
  cbn [serial_run]. rewrite bind_projections.
  destruct (result_of (step cfg i s)); cbn [trace_of snd]; [|exact Hok].
  apply led_ok_app; [exact Hok | now apply IH].
Qed.

End LedFacts.





(** X6. A line for a new identifier when the manager's timer is not
    pending (at start-up, or after a tap-off): one tap-on for the
    identifier of the line, one notification for it, no tap-off; the
    identifier becomes [last_id]. *)
Theorem read_line_first_tap
    (cfg : Config) (w : TapManager.world) (line : string) (s : TapManager.t) :
  System.session_armed s = false ->
  TapManager.id_differs (TapManager._byte_string_to_lens_id s line)
                        (TapManager.last_id s) = true ->
  let id := TapManager._byte_string_to_lens_id s line in
  let x := TapManager.read_line cfg w line s in
  TapManager.actions (TapManager.trace_of x) = [TapManager.TapOn (Some id)]
  /\ TapManager.notified (TapManager.trace_of x) = [Some id]
  /\ TapManager.last_id (TapManager.state_of x) = Some id.
Proof.
  intros Ha Hd id x. subst id x.
  destruct (StepFacts.read_line_actions cfg w line s) as [Hact Hn].
  rewrite Hd, Ha in Hact. rewrite Hd in Hn.
  repeat split; try assumption.
  apply OutcomeFacts.read_line_last_id.
Qed.

Lemma read_line_first_tap_witness :
  TapManager.actions
    (TapManager.trace_of
       (TapManager.read_line default_config delivered "04:AA:BB:CC" fresh))
  = [TapManager.TapOn (Some "aabbcc")].
Proof.
  exact (proj1 (read_line_first_tap default_config delivered "04:AA:BB:CC"
                  fresh eq_refl eq_refl)).
Defined.

Module EscapeFacts.
Import TapManager TapFacts SessionFacts LoopFacts OutcomeFacts System StepFacts.

Lemma tap_on_unhandled (cfg : Config) (w : world) (s : t) (e : exn) :
  post_result w = PostRaises e ->
  handled (post_result w) = false ->
  result_of (tap_on cfg w s) = Raise e.
Proof.
  intros Hw Hh. rewrite tap_on_run. cbn [result_of fst].
  unfold send_tap, bind, emit, ret, raise. rewrite Hw in *.
  destruct e; try discriminate; reflexivity.
Qed.

Lemma session_armed_frame (s1 s2 : t) :
  tap_off_timer s1 = tap_off_timer s2 ->
  timers s1 = timers s2 ->
  session_armed s1 = session_armed s2.
Proof.
  intros Hh Ht. unfold session_armed. rewrite Hh.
  destruct (tap_off_timer s2) as [h|]; [|reflexivity].
  now apply is_alive_timers.
Qed.

Lemma main_loop_cons (cfg : Config) (w : world) (line : string)
    (rest : list (world * string)) (s : t) :
  main_loop cfg ((w, line) :: rest) s
  = match result_of (main_step cfg w line s) with
    | Ret _ =>
        (result_of (main_loop cfg rest (state_of (main_step cfg w line s))),
         state_of (main_loop cfg rest (state_of (main_step cfg w line s))),
         trace_of (main_step cfg w line s)
           ++ trace_of (main_loop cfg rest (state_of (main_step cfg w line s))))
    | Raise e =>
        (Raise e, state_of (main_step cfg w line s),
         trace_of (main_step cfg w line s))
    end.
Proof. cbn [main_loop]. now rewrite bind_projections. Qed.

End EscapeFacts.

(** X7. When the request raises an exception that [send_tap] does not
    catch, a line for a new identifier makes [read_line] raise it: after
    the tap-on was logged and the request attempted, with [last_id] already
    set to the new identifier and with no timer pending for the manager, so
    that no tap-off is scheduled for that identifier; the loop of [main]
    ends with the exception. *)
Theorem read_line_uncaught_exception
    (cfg : Config) (w : TapManager.world) (line : string)
    (s : TapManager.t) (e : exn) :
  TapManager.post_result w = TapManager.PostRaises e ->
  TapManager.handled (TapManager.post_result w) = false ->
  TapManager.id_differs (TapManager._byte_string_to_lens_id s line)
                        (TapManager.last_id s) = true ->
  starts_with_hex_pair line = true ->
  let id := TapManager._byte_string_to_lens_id s line in
  let x := TapManager.read_line cfg w line s in
  TapManager.result_of x = Raise e
  /\ TapManager.last_id (TapManager.state_of x) = Some id
  /\ System.session_armed (TapManager.state_of x) = false
  /\ TapManager.notified (TapManager.trace_of x) = [Some id]
  /\ (forall rest : list (TapManager.world * string),
        TapManager.result_of (TapManager.main_loop cfg ((w, line) :: rest) s)
        = Raise e).
Proof.
  intros Hw Hh Hd Hgate id x. subst id x.
  destruct (StepFacts.read_line_actions cfg w line s) as [_ Hn].
  rewrite Hd in Hn.
  assert (Hres : TapManager.result_of (TapManager.read_line cfg w line s) = Raise e
                 /\ System.session_armed
                      (TapManager.state_of (TapManager.read_line cfg w line s))
                    = false).
  { destruct (System.session_armed s) eqn:Ha.
    - unfold System.session_armed in Ha.
      destruct (TapManager.tap_off_timer s) as [h|] eqn:Ht; [|discriminate].
      rewrite (TapFacts.read_line_switch cfg w line s h Ht Ha Hd).
      set (s3 := TapManager.upd_last_id _ _).
      rewrite (EscapeFacts.tap_on_unhandled cfg w s3 e Hw Hh).
      split; [reflexivity|]. cbn [TapManager.state_of fst snd].
      destruct (SessionFacts.tap_on_state cfg w s3) as [_ [Htm [Hth _]]].
      destruct (SessionFacts.tap_off_state cfg (TapManager.cancelled h s))
        as [_ [Hotm [Hoh _]]].
      destruct (TapFacts.cancelled_frame h s) as [_ [_ Hct]].
      unfold TapManager.state_of in *.
      rewrite (EscapeFacts.session_armed_frame _ (TapManager.cancelled h s)).
      + unfold System.session_armed. rewrite Hct, Ht.
        apply TapFacts.cancelled_not_alive.
      + rewrite Hth. exact Hoh.
      + rewrite Htm. exact Hotm.
    - rewrite (TapFacts.read_line_start cfg w line s Ha Hd).
      set (s3 := TapManager.upd_last_id _ _).
      rewrite (EscapeFacts.tap_on_unhandled cfg w s3 e Hw Hh).
      split; [reflexivity|]. cbn [TapManager.state_of fst snd].
      destruct (SessionFacts.tap_on_state cfg w s3) as [_ [Htm [Hth _]]].
      unfold TapManager.state_of in *.
      rewrite (EscapeFacts.session_armed_frame _ s); [exact Ha | exact Hth | exact Htm]. }
  destruct Hres as [Hr Harm].
  repeat split; try assumption.
  - apply OutcomeFacts.read_line_last_id.
  - intros rest. rewrite EscapeFacts.main_loop_cons, RunFacts.main_step_read_line.
    rewrite Hgate, Hr. reflexivity.
Qed.

Lemma read_line_uncaught_exception_witness :
  TapManager.result_of
    (TapManager.main_loop default_config
       [({| TapManager.now_iso := "2021-03-01T10:00:00+11:00";
            TapManager.post_result :=
              TapManager.PostRaises (OtherException "ReadTimeout" "timed out") |},
         "04:DD:EE:FF"); (delivered, "04:DD:EE:FF")]
       present)
  = Raise (OtherException "ReadTimeout" "timed out").
Proof.
  exact (proj2 (proj2 (proj2 (proj2
           (read_line_uncaught_exception default_config
              {| TapManager.now_iso := "2021-03-01T10:00:00+11:00";
                 TapManager.post_result :=
                   TapManager.PostRaises
                     (OtherException "ReadTimeout" "timed out") |}
              "04:DD:EE:FF" present (OtherException "ReadTimeout" "timed out")
              eq_refl eq_refl eq_refl eq_refl))))
           [(delivered, "04:DD:EE:FF")]).
Defined.

(** ** The loop of [main], from the bytes read *)

Module ReadFacts.
Import TapManager TapFacts SessionFacts LoopFacts OutcomeFacts System StepFacts.

Lemma read_loop_cons (cfg : Config) (w : world) (r : read_result)
    (rest : list (world * read_result)) (s : t) :
  read_loop cfg ((w, r) :: rest) s
  = match result_of (main_iteration cfg w r s) with
    | Ret _ =>
        (result_of (read_loop cfg rest (state_of (main_iteration cfg w r s))),
         state_of (read_loop cfg rest (state_of (main_iteration cfg w r s))),
         trace_of (main_iteration cfg w r s)
           ++ trace_of (read_loop cfg rest (state_of (main_iteration cfg w r s))))
    | Raise e =>
        (Raise e, state_of (main_iteration cfg w r s),
         trace_of (main_iteration cfg w r s))
    end.
Proof. cbn [read_loop]. now rewrite bind_projections. Qed.

(** On lines that all decode, the loop is [main_loop]. *)
Lemma read_loop_decoded (cfg : Config) (input : list (world * string)) (s : t) :
  read_loop cfg (map (fun wl => (fst wl, Decoded (snd wl))) input) s
  = main_loop cfg input s.
Proof.
  revert s. induction input as [|[w line] rest IH]; intros s; [reflexivity|].
  cbn [map fst snd]. rewrite read_loop_cons, EscapeFacts.main_loop_cons.
  cbn [main_iteration].
  destruct (result_of (main_step cfg w line s)); [|reflexivity].
  now rewrite IH.
Qed.

(** Decoded lines that do not start with two hexadecimal digits can be
    left out of the input of [main_loop]. *)
Lemma main_loop_filter
    (cfg : Config) (input : list (world * string)) (s : t) :
  main_loop cfg input s
  = main_loop cfg
      (List.filter (fun wl => starts_with_hex_pair (snd wl)) input) s.
Proof.
  revert s. induction input as [|[w line] rest IH]; intros s; [reflexivity|].
  cbn [List.filter snd].
  destruct (starts_with_hex_pair line) eqn:Hg.
  - rewrite !EscapeFacts.main_loop_cons.
    destruct (result_of (main_step cfg w line s)); [|reflexivity].
    now rewrite IH.
  - rewrite EscapeFacts.main_loop_cons, RunFacts.main_step_read_line, Hg.
    cbn [result_of state_of trace_of fst snd app].
    rewrite IH.
    now destruct (main_loop cfg _ s) as [[r s'] tr].
Qed.

End ReadFacts.

(** X8. What the loop of [main] skips and what it does not.  A line that
    decodes and does not start with two hexadecimal digits can be left out
    of the input: the loop ends in the same state with the same trace and
    the same result.  A line that is not UTF-8 cannot: [decode] raises
    [UnicodeDecodeError] before the filter is reached, nothing in [main]
    catches it, and the loop ends there whatever follows. *)
Theorem read_loop_skips_unmatched
    (cfg : Config) (input : list (TapManager.world * TapManager.read_result))
    (s : TapManager.t) :
  TapManager.read_loop cfg input s
  = TapManager.read_loop cfg
      (List.filter
         (fun wr => match snd wr with
                    | TapManager.Decoded line => starts_with_hex_pair line
                    | TapManager.NotUtf8 _ => true
                    end) input) s
  /\ forall (w : TapManager.world) (reason : string)
            (rest : list (TapManager.world * TapManager.read_result)),
       TapManager.read_loop cfg ((w, TapManager.NotUtf8 reason) :: rest) s
       = (Raise (OtherException "UnicodeDecodeError" reason), s, []).
Proof.
  split; [|reflexivity].
  revert s. induction input as [|[w [line|reason]] rest IH]; intros s;
    [reflexivity| |].
  - cbn [List.filter snd].
    destruct (starts_with_hex_pair line) eqn:Hg.
    + rewrite !ReadFacts.read_loop_cons.
      destruct (TapManager.result_of
                  (TapManager.main_iteration cfg w (TapManager.Decoded line) s));
        [|reflexivity].
      now rewrite IH.
    + rewrite ReadFacts.read_loop_cons. cbn [TapManager.main_iteration].
      rewrite RunFacts.main_step_read_line, Hg.
      cbn [TapManager.result_of TapManager.state_of TapManager.trace_of
           fst snd app].
      rewrite IH.
      now destruct (TapManager.read_loop cfg _ s) as [[r s'] tr].
  - reflexivity.
Qed.

Example read_loop_not_utf8 :
  TapManager.read_loop default_config
    [(delivered, TapManager.Decoded "idtech ready");
     (delivered, TapManager.NotUtf8 "invalid start byte");
     (delivered, TapManager.Decoded "04:AA:BB:CC")] fresh
  = (Raise (OtherException "UnicodeDecodeError" "invalid start byte"), fresh, []).
Proof. reflexivity. Qed.

(** X9. A line as the reader prints it, two-digit hexadecimal groups
    separated by colons and followed by whitespace, is handed to
    [read_line], and the identifier of the session after it is made of the
    groups after the first, lowercased. *)
Theorem tag_line_is_processed
    (cfg : Config) (w : TapManager.world) (g0 : string) (gs : list string)
    (ws : string) (s : TapManager.t) :
  forallb is_hex_pair (g0 :: gs) = true ->
  all_chars Py.isspace ws = true ->
  let line := (Py.join ":" (g0 :: gs) ++ ws)%string in
  TapManager.main_step cfg w line s = TapManager.read_line cfg w line s
  /\ TapManager.last_id (TapManager.state_of (TapManager.main_step cfg w line s))
     = Some (Py.join "" (map Py.lower gs)).
Proof.
  intros Hgs Hws line.
  assert (Hgate : starts_with_hex_pair line = true).
  { subst line. cbn [forallb] in Hgs. apply andb_true_iff in Hgs as [H0 _].
    destruct g0 as [|a [|b [|c g0]]]; try discriminate.
    destruct gs as [|g1 gs]; exact H0. }
  rewrite RunFacts.main_step_read_line, Hgate. split; [reflexivity|].
  rewrite OutcomeFacts.read_line_last_id. f_equal.
  apply (NormalizeFacts.normalize_padded_groups "" ws g0 gs);
    [reflexivity | assumption | assumption].
Qed.

Lemma tag_line_is_processed_witness :
  TapManager.last_id
    (TapManager.state_of
       (TapManager.main_step default_config delivered
          (Py.join ":" ["04"; "04"; "A5"; "2C"] ++ String "010" "") fresh))
  = Some "04a52c".
Proof.
  exact (proj2 (tag_line_is_processed default_config delivered "04"
                  ["04"; "A5"; "2C"] (String "010" "") fresh eq_refl eq_refl)).
Defined.

(** X10. A line that starts with two hexadecimal digits and holds no colon
    passes the filter of [main] but has the empty string as identifier: the
    session after it is that of the empty identifier, and unless that
    session was already open a notification with an empty uid is sent. *)
Theorem colon_free_line_empty_id
    (cfg : Config) (w : TapManager.world) (line : string) (s : TapManager.t) :
  starts_with_hex_pair line = true ->
  all_chars (Py.not_sep ":") line = true ->
  let x := TapManager.main_step cfg w line s in
  TapManager.last_id (TapManager.state_of x) = Some ""
  /\ TapManager.notified (TapManager.trace_of x)
     = if TapManager.id_differs "" (TapManager.last_id s) then [Some ""] else [].
Proof.
  intros Hgate Hc x. subst x.
  assert (Hid : TapManager._byte_string_to_lens_id s line = "").
  { apply GateFacts.normalize_no_colon. unfold Py.strip.
    now apply NormalizeMore.all_chars_rstrip, NormalizeMore.all_chars_lstrip. }
  rewrite RunFacts.main_step_read_line, Hgate.
  destruct (StepFacts.read_line_actions cfg w line s) as [_ Hn].
  rewrite Hid in Hn. split; [|exact Hn].
  now rewrite OutcomeFacts.read_line_last_id, Hid.
Qed.

Lemma colon_free_line_empty_id_witness :
  TapManager.notified
    (TapManager.trace_of
       (TapManager.main_step default_config delivered "0404A52CF22A5E80" fresh))
  = [Some ""].
Proof.
  exact (proj2 (colon_free_line_empty_id default_config delivered
                  "0404A52CF22A5E80" fresh eq_refl eq_refl)).
Defined.

(** X11. In any serial schedule from a fresh manager (the iterations of
    the loop of [main] and the callbacks of the timers one after the other,
    none starting before the one before it has ended), whatever the
    outcomes of the requests, a ramp thread is started only after the one
    before it has been stopped and joined; every ramp lasts 0.6 s and goes
    to the success colour or to the default colour: the manager never shows
    the failure indication. *)
Theorem serial_run_ramps_one_at_a_time (cfg : Config) (inputs : list System.input) :
  let x := System.serial_run cfg inputs (fst (TapManager.init cfg)) in
  System.serial (List.filter TapManager.is_led (TapManager.trace_of x)) = true
  /\ Forall (System.session_ramp cfg) (System.ramp_threads (TapManager.trace_of x)).
Proof.
  apply (LedFacts.run_led_ok cfg inputs (fst (TapManager.init cfg))).
  discriminate.
Qed.

Module DispatchFacts.
Import TapManager System.

Lemma send_tap_cases (cfg : Config) (w : world) (id : option string) (s : t) :
  match post_result w with
  | Response code text =>
      if (code =? 201)%Z
      then result_of (send_tap cfg w id s) = Ret 0%Z
           /\ sentry_reports (trace_of (send_tap cfg w id s)) = 0
      else result_of (send_tap cfg w id s) = Ret 1%Z
           /\ sentry_reports (trace_of (send_tap cfg w id s)) = 1
  | PostRaises (RequestsConnectionError msg) =>
      result_of (send_tap cfg w id s) = Ret 1%Z
      /\ sentry_reports (trace_of (send_tap cfg w id s)) = 1
  | PostRaises e =>
      result_of (send_tap cfg w id s) = Raise e
      /\ sentry_reports (trace_of (send_tap cfg w id s)) = 0
  end.
Proof.
  unfold send_tap, bind, emit, ret, raise, result_of, trace_of, sentry_reports.
  destruct (post_result w) as [code text|[|msg|n m]];
    [destruct (code =? 201)%Z|..]; cbn; auto.
Qed.

End DispatchFacts.

(** X12. [send_tap] returns 0 exactly when the endpoint answers with
    status 201, and 1 exactly when it answers with another status or the
    request raises a connection error; the number of reports it makes to
    Sentry is its return value (none when it raises); it makes one request,
    for the identifier it was given, and leaves the manager as it was. *)
Theorem send_tap_return_code
    (cfg : Config) (w : TapManager.world) (id : option string) (s : TapManager.t) :
  let x := TapManager.send_tap cfg w id s in
  (TapManager.result_of x = Ret 0%Z
   <-> exists text, TapManager.post_result w = TapManager.Response 201 text)
  /\ (TapManager.result_of x = Ret 1%Z
      <-> TapManager.handled (TapManager.post_result w) = true
          /\ ~ exists text, TapManager.post_result w = TapManager.Response 201 text)
  /\ System.sentry_reports (TapManager.trace_of x)
     = match TapManager.result_of x with
       | Ret r => Z.to_nat r
       | Raise _ => 0
       end
  /\ TapManager.notified (TapManager.trace_of x) = [id]
  /\ TapManager.state_of x = s.
Proof.
  cbv zeta.
  pose proof (DispatchFacts.send_tap_cases cfg w id s) as Hc.
  destruct (TapFacts.send_tap_trace cfg w id s) as [Hn _].
  pose proof (TapFacts.send_tap_run cfg w id s) as Hs.
  split; [|split; [|split; [|split]]]; try exact Hn.
  - destruct (TapManager.post_result w) as [code text|e] eqn:Hw.
    + destruct (code =? 201)%Z eqn:E; destruct Hc as [Hr _]; rewrite Hr.
      * apply Z.eqb_eq in E. subst code. split; [eauto | reflexivity].
      * split; [discriminate|]. intros [text' [= -> _]]. discriminate.
    + split.
      * intros Hr. destruct e; destruct Hc as [Hr' _]; congruence.
      * intros [text [=]].
  - destruct (TapManager.post_result w) as [code text|e] eqn:Hw.
    + destruct (code =? 201)%Z eqn:E; destruct Hc as [Hr _]; rewrite Hr.
      * apply Z.eqb_eq in E. subst code. split; [discriminate|].
        intros [_ Hne]. exfalso. apply Hne. eauto.
      * split; [|reflexivity]. intros _. split; [reflexivity|].
        intros [text' [= -> _]]. discriminate.
    + destruct e; destruct Hc as [Hr _]; rewrite Hr; cbn.
      * split; [discriminate | intros [? _]; discriminate].
      * split; [|reflexivity]. intros _. split; [reflexivity|].
        intros [text [=]].
      * split; [discriminate | intros [? _]; discriminate].
  - destruct (TapManager.post_result w) as [code text|e].
    + destruct (code =? 201)%Z; destruct Hc as [-> ->]; reflexivity.
    + destruct e; destruct Hc as [-> ->]; reflexivity.
  - rewrite Hs. reflexivity.
Qed.

(** ** More on ramps *)

Module RampMore.
Import RampThread RampFacts.

Lemma default_last_cons {A} (x y : A) (l : list A) :
  default x (last (y :: l)) = default y (last l).
Proof. rewrite last_cons. now destruct (last l). Qed.

(** A loop that is stopped after some readings below the duration: one
    write per earlier reading, none for the reading at which it is stopped,
    and [current_color] is left at the last colour written. *)
Lemma run_loop_cancelled (cfg : Config) (start_color diff target : color)
    (d t0 now : Q) (pre : list (Q * bool)) :
  Forall (fun o => snd o = false /\ (t0 <= fst o)%Q /\ (fst o - t0 < d)%Q) pre ->
  forall cur : color,
  exists cols : list color,
    length cols = length pre
    /\ forall rest : list (Q * bool),
        run_loop cfg start_color diff target d t0 cur (pre ++ (now, true) :: rest)
        = (Cancelled, default cur (last cols),
           map (set_leds cfg) cols ++ [PrintCancelled]).
Proof.
  intros Hpre. induction Hpre as [|[t stopped] pre [Hs [Ht0 Htd]] _ IH];
    intros cur.
  - exists []. split; [reflexivity|]. intros rest. reflexivity.
  - cbn [fst snd] in Hs, Ht0, Htd. subst stopped.
    assert (Hd : ~ (d == 0)%Q).
    { intros E. rewrite E in Htd.
      apply (Qlt_not_le _ _ Htd). now apply Qle_minus_iff in Ht0. }
    destruct (interpolate_nonzero (t - t0) start_color diff d Hd) as [cur' Hi].
    destruct (IH cur') as [cols [Hlen Hrun]].
    exists (cur' :: cols). split; [cbn [length]; now rewrite Hlen|].
    intros rest.
    change (((t, false) :: pre) ++ (now, true) :: rest)
      with ((t, false) :: (pre ++ (now, true) :: rest)).
    cbn [run_loop]. rewrite (Qle_bool_false _ _ Htd), Hi, Hrun.
    now rewrite default_last_cons.
Qed.

End RampMore.

(** X14. A ramp that is stopped, after any number of readings of the clock
    below its duration: it ends with status [Cancelled] at the first reading
    where the stop flag is set, even if its duration has elapsed by then,
    without writing its target for that reading; it has written once per
    earlier reading and leaves [current_color] at the last colour it
    wrote (the start colour if it wrote none); later readings are not
    looked at. *)
Theorem run_stopped_is_cancelled
    (cfg : Config) (th : RampThread.t) (t0 now : Q)
    (pre rest : list (Q * bool)) :
  Forall (fun o => snd o = false /\ (t0 <= fst o)%Q
                   /\ (fst o - t0 < RampThread.duration_s th)%Q) pre ->
  let x := RampThread.run cfg th t0 (pre ++ (now, true) :: rest) in
  fst (fst x) = RampThread.Cancelled
  /\ last (snd x) = Some RampThread.PrintCancelled
  /\ length (RampThread.colors_written (snd x)) = length pre
  /\ snd (fst x)
     = default (RampThread.current_color th)
               (last (RampThread.colors_written (snd x)))
  /\ x = RampThread.run cfg th t0 (pre ++ [(now, true)]).
Proof.
  intros Hpre x. subst x. unfold RampThread.run.
  destruct (RampThread.target_color th) as [[tr tg] tb].
  destruct (RampThread.current_color th) as [[sr sg] sb].
  destruct (RampMore.run_loop_cancelled cfg (sr, sg, sb)
              ((tr - sr)%Z, (tg - sg)%Z, (tb - sb)%Z) (tr, tg, tb)
              (RampThread.duration_s th) t0 now pre Hpre (sr, sg, sb))
    as [cols [Hlen Hrun]].
  rewrite !Hrun. cbn [fst snd].
  change (?o :: ?out ++ ?l) with (([o] ++ out) ++ l).
  rewrite last_snoc, !RampFacts.colors_written_app,
    RampFacts.colors_written_set_leds.
  unfold RampThread.colors_written at 1 2 3 4. cbn [omap list_omap].
  cbn [RampThread.written_color app]. rewrite app_nil_r.
  repeat split; try reflexivity. exact Hlen.
Qed.

Lemma run_stopped_is_cancelled_witness :
  fst (fst (RampThread.run default_config
              {| RampThread.current_color := (0, 0, 0)%Z;
                 RampThread.target_color := (0, 255, 0)%Z;
                 RampThread.duration_s := 6 # 10 |}
              100 ([(100%Q, false); (1003 # 10, false)]
                   ++ (1009 # 10, true) :: [(1010 # 10, false)])))
  = RampThread.Cancelled.
Proof.
  refine (proj1 (run_stopped_is_cancelled default_config
            {| RampThread.current_color := (0, 0, 0)%Z;
               RampThread.target_color := (0, 255, 0)%Z;
               RampThread.duration_s := 6 # 10 |}
            100 (1009 # 10) [(100%Q, false); (1003 # 10, false)]
            [(1010 # 10, false)] _)).
  repeat constructor; unfold Qle, Qlt; cbn; lia.
Defined.

Module BoundFacts.
Import RampThread RampFacts.

Lemma between_refl_r (a b : Z) : between a b b.
Proof. unfold between. lia. Qed.

(** [int] keeps a value inside integer bounds. *)
Lemma int_bounds (lo hi : Z) (q : Q) :
  (inject_Z lo <= q)%Q -> (q <= inject_Z hi)%Q -> (lo <= int q <= hi)%Z.
Proof.
  destruct q as [n p]. unfold Qle, int. cbn [Qnum Qden inject_Z].
  intros Hlo Hhi.
  pose proof (Z.quot_rem' n (Zpos p)) as Hq.
  destruct (Z.le_ge_cases 0 n) as [Hn|Hn].
  - pose proof (Z.rem_bound_pos_pos n (Zpos p) ltac:(lia) Hn). nia.
  - pose proof (Z.rem_bound_pos_neg n (Zpos p) ltac:(lia) Hn). nia.
Qed.

Lemma unit_fraction (t d : Q) :
  (0 <= t)%Q -> (t < d)%Q -> (0 <= t / d)%Q /\ (t / d <= 1)%Q.
Proof.
  intros H0 Hd. assert (Hpos : (0 < d)%Q) by lra. split.
  - apply Qle_shift_div_l; [exact Hpos | lra].
  - apply Qle_shift_div_r; [exact Hpos | lra].
Qed.

(** The cubic stays between its beginning value and beginning plus
    change, while the elapsed time is below the duration. *)
Lemma ease_bounds (t d : Q) (b c : Z) :
  (0 <= t)%Q -> (t < d)%Q ->
  exists v, ease t (inject_Z b) (inject_Z c) d = Ret v
            /\ between b (b + c) (int v).
Proof.
  intros H0 Hd.
  assert (Hne : ~ (d == 0)%Q) by lra.
  rewrite (ease_nonzero _ _ _ _ Hne). eexists. split; [reflexivity|].
  destruct (unit_fraction t d H0 Hd) as [Hx0 Hx1].
  set (x := (t / d)%Q) in *.
  assert (Hc0 : (0 <= x * x * x)%Q) by nra.
  assert (Hc1 : (x * x * x <= 1)%Q) by nra.
  assert (E : (inject_Z c * x * x * x + inject_Z b
               == inject_Z c * (x * x * x) + inject_Z b)%Q) by ring.
  assert (Hsum : (inject_Z (b + c) == inject_Z b + inject_Z c)%Q)
    by (rewrite inject_Z_plus; reflexivity).
  unfold between.
  destruct (Z.le_ge_cases 0 c) as [Hc|Hc].
  - left. apply int_bounds; rewrite E, ?Hsum.
    + assert (0 <= inject_Z c)%Q by (rewrite Zle_Qle in Hc; exact Hc). nra.
    + assert (0 <= inject_Z c)%Q by (rewrite Zle_Qle in Hc; exact Hc). nra.
  - right. apply int_bounds; rewrite E, ?Hsum.
    + assert (inject_Z c <= 0)%Q by (rewrite Zle_Qle in Hc; exact Hc). nra.
    + assert (inject_Z c <= 0)%Q by (rewrite Zle_Qle in Hc; exact Hc). nra.
Qed.

Lemma interpolate_bounds (t d : Q) (start_color target : color) :
  (0 <= t)%Q -> (t < d)%Q ->
  let '(sr, sg, sb) := start_color in
  let '(tr, tg, tb) := target in
  exists c,
    interpolate t start_color ((tr - sr)%Z, (tg - sg)%Z, (tb - sb)%Z) d = Ret c
    /\ color_between start_color target c.
Proof.
  intros H0 Hd. destruct start_color as [[sr sg] sb], target as [[tr tg] tb].
  unfold interpolate.
  destruct (ease_bounds t d sr (tr - sr) H0 Hd) as [v0 [-> B0]].
  destruct (ease_bounds t d sg (tg - sg) H0 Hd) as [v1 [-> B1]].
  destruct (ease_bounds t d sb (tb - sb) H0 Hd) as [v2 [-> B2]].
  eexists. split; [reflexivity|].
  replace (sr + (tr - sr))%Z with tr in B0 by lia.
  replace (sg + (tg - sg))%Z with tg in B1 by lia.
  replace (sb + (tb - sb))%Z with tb in B2 by lia.
  cbn. auto.
Qed.

Lemma color_between_target (c1 c2 : color) : color_between c1 c2 c2.
Proof.
  destruct c1 as [[r1 g1] b1], c2 as [[r2 g2] b2]. cbn.
  repeat split; apply between_refl_r.
Qed.

Lemma run_loop_between (cfg : Config) (sr sg sb tr tg tb : Z) (d t0 : Q)
    (obs : list (Q * bool)) :
  Forall (fun o => (t0 <= fst o)%Q) obs ->
  forall cur : color,
    Forall (color_between (sr, sg, sb) (tr, tg, tb))
      (colors_written
         (snd (run_loop cfg (sr, sg, sb)
                 ((tr - sr)%Z, (tg - sg)%Z, (tb - sb)%Z) (tr, tg, tb) d t0
                 cur obs))).
Proof.
  intros Hobs. induction Hobs as [|[now stopped] obs Hclock _ IH]; intros cur;
    cbn [run_loop]; [constructor|].
  cbn [fst] in Hclock.
  destruct stopped; [constructor|].
  destruct (Qle_bool d (now - t0)) eqn:Hle.
  - cbn [snd]. unfold colors_written. cbn. rewrite written_set_leds. cbn.
    constructor; [apply color_between_target | constructor].
  - assert (Hlt : (now - t0 < d)%Q).
    { apply Qnot_le_lt. intros H. apply Qle_bool_iff in H. congruence. }
    assert (H0 : (0 <= now - t0)%Q) by lra.
    destruct (interpolate_bounds (now - t0) d (sr, sg, sb) (tr, tg, tb) H0 Hlt)
      as [c [Hi Hb]].
    rewrite Hi. specialize (IH c).
    destruct (run_loop cfg (sr, sg, sb) _ (tr, tg, tb) d t0 c obs)
      as [[st fin] out].
    cbn [snd] in *.
    change (colors_written (?o :: ?out)) with (colors_written ([o] ++ out)).
    rewrite colors_written_app. unfold colors_written at 1. cbn.
    rewrite written_set_leds. cbn. now constructor.
Qed.

End BoundFacts.

(** X15. A ramp never overshoots: as long as the clock does not go below
    its first reading, every colour the ramp puts on the LEDs, interpolated
    or final, has each of its three channels between the channel of the
    colour it started from and the channel of its target. *)
Theorem run_colors_stay_between
    (cfg : Config) (th : RampThread.t) (t0 : Q) (obs : list (Q * bool)) :
  Forall (fun o => (t0 <= fst o)%Q) obs ->
  Forall (RampThread.color_between (RampThread.current_color th)
                                   (RampThread.target_color th))
         (RampThread.colors_written (snd (RampThread.run cfg th t0 obs))).
Proof.
  intros Hobs. unfold RampThread.run.
  destruct (RampThread.target_color th) as [[tr tg] tb].
  destruct (RampThread.current_color th) as [[sr sg] sb].
  pose proof (BoundFacts.run_loop_between cfg sr sg sb tr tg tb
                (RampThread.duration_s th) t0 obs Hobs (sr, sg, sb)) as H.
  destruct (RampThread.run_loop cfg (sr, sg, sb) _ (tr, tg, tb)
              (RampThread.duration_s th) t0 (sr, sg, sb) obs)
    as [[st fin] out].
  cbn [snd] in *. unfold RampThread.colors_written in *. cbn. exact H.
Qed.

Lemma run_colors_stay_between_witness :
  Forall (RampThread.color_between (130, 127, 127)%Z (0, 255, 0)%Z)
    (RampThread.colors_written
       (snd (RampThread.run default_config
               {| RampThread.current_color := (130, 127, 127)%Z;
                  RampThread.target_color := (0, 255, 0)%Z;
                  RampThread.duration_s := 6 # 10 |}
               100 [(1001 # 10, false); (1004 # 10, false);
                    (1007 # 10, false)]))).
Proof.
  refine (run_colors_stay_between default_config
            {| RampThread.current_color := (130, 127, 127)%Z;
               RampThread.target_color := (0, 255, 0)%Z;
               RampThread.duration_s := 6 # 10 |}
            100 [(1001 # 10, false); (1004 # 10, false); (1007 # 10, false)] _).
  repeat constructor; unfold Qle; cbn; lia.
Defined.

Module CompleteFacts.
Import RampThread RampFacts RampMore.

(** As [run_loop_completes], with the content of [current_color] at the
    end: the last interpolated colour. *)
Lemma run_loop_completes_color (cfg : Config) (start_color diff target : color)
    (d t0 now : Q) (pre : list (Q * bool)) :
  Forall (fun o => snd o = false /\ (t0 <= fst o)%Q /\ (fst o - t0 < d)%Q) pre ->
  (d <= now - t0)%Q ->
  forall cur : color,
  exists cols : list color,
    length cols = length pre
    /\ forall rest : list (Q * bool),
        run_loop cfg start_color diff target d t0 cur (pre ++ (now, false) :: rest)
        = (Completed, default cur (last cols),
           map (set_leds cfg) cols ++ [set_leds cfg target]).
Proof.
  intros Hpre Hnow. induction Hpre as [|[t stopped] pre [Hs [Ht0 Htd]] _ IH];
    intros cur.
  - exists []. split; [reflexivity|]. intros rest.
    cbn [app run_loop map]. apply Qle_bool_iff in Hnow. now rewrite Hnow.
  - cbn [fst snd] in Hs, Ht0, Htd. subst stopped.
    assert (Hd : ~ (d == 0)%Q).
    { intros E. rewrite E in Htd.
      apply (Qlt_not_le _ _ Htd). now apply Qle_minus_iff in Ht0. }
    destruct (interpolate_nonzero (t - t0) start_color diff d Hd) as [cur' Hi].
    destruct (IH cur') as [cols [Hlen Hrun]].
    exists (cur' :: cols). split; [cbn [length]; now rewrite Hlen|].
    intros rest.
    change (((t, false) :: pre) ++ (now, false) :: rest)
      with ((t, false) :: (pre ++ (now, false) :: rest)).
    cbn [run_loop]. rewrite (Qle_bool_false _ _ Htd), Hi, Hrun.
    now rewrite default_last_cons.
Qed.

End CompleteFacts.

(** X16. When a ramp runs to completion the target goes to the LEDs but
    not into [current_color]: the list, which [LedsManager.ramp] hands to
    the next thread as its starting colour, is left at the last
    interpolated colour, or untouched if the ramp made no interpolation
    step. *)
Theorem run_completed_leaves_current_color
    (cfg : Config) (th : RampThread.t) (t0 now : Q)
    (pre rest : list (Q * bool)) :
  Forall (fun o => snd o = false /\ (t0 <= fst o)%Q
                   /\ (fst o - t0 < RampThread.duration_s th)%Q) pre ->
  (RampThread.duration_s th <= now - t0)%Q ->
  let x := RampThread.run cfg th t0 (pre ++ (now, false) :: rest) in
  exists cols : list color,
    length cols = length pre
    /\ RampThread.colors_written (snd x) = cols ++ [RampThread.target_color th]
    /\ snd (fst x) = default (RampThread.current_color th) (last cols).
Proof.
  intros Hpre Hnow x. subst x. unfold RampThread.run.
  destruct (RampThread.target_color th) as [[tr tg] tb].
  destruct (RampThread.current_color th) as [[sr sg] sb].
  destruct (CompleteFacts.run_loop_completes_color cfg (sr, sg, sb)
              ((tr - sr)%Z, (tg - sg)%Z, (tb - sb)%Z) (tr, tg, tb)
              (RampThread.duration_s th) t0 now pre Hpre Hnow (sr, sg, sb))
    as [cols [Hlen Hrun]].
  exists cols. rewrite Hrun. cbn [fst snd].
  split; [exact Hlen|]. split; [|reflexivity].
  change (?o :: ?out ++ ?l) with (([o] ++ out) ++ l).
  rewrite !RampFacts.colors_written_app, RampFacts.colors_written_set_leds.
  unfold RampThread.colors_written. cbn [omap list_omap].
  rewrite RampFacts.written_set_leds. reflexivity.
Qed.

Lemma run_completed_leaves_current_color_witness :
  let x := RampThread.run default_config
             {| RampThread.current_color := (0, 0, 0)%Z;
                RampThread.target_color := (0, 255, 0)%Z;
                RampThread.duration_s := 6 # 10 |}
             100 ([(1003 # 10, false)] ++ (1007 # 10, false) :: []) in
  exists cols : list color,
    length cols = 1
    /\ RampThread.colors_written (snd x) = cols ++ [(0, 255, 0)%Z]
    /\ snd (fst x) = default (0, 0, 0)%Z (last cols).
Proof.
  refine (run_completed_leaves_current_color default_config
            {| RampThread.current_color := (0, 0, 0)%Z;
               RampThread.target_color := (0, 255, 0)%Z;
               RampThread.duration_s := 6 # 10 |}
            100 (1007 # 10) [(1003 # 10, false)] [] _ _).
  - repeat constructor; unfold Qle, Qlt; cbn; lia.
  - unfold Qle. cbn. lia.
Defined.

Module HoldFacts.
Import TapManager TapFacts SessionFacts LoopFacts OutcomeFacts System StepFacts
       RunFacts.

Lemma main_loop_run (cfg : Config) (input : list (world * string)) (s : t) :
  main_loop cfg input s
  = serial_run cfg (map (fun wl => Line (fst wl) (snd wl)) input) s.
Proof.
  revert s. induction input as [|[w line] rest IH]; intros s; [reflexivity|].
  cbn [main_loop map serial_run step fst snd]. unfold bind.
  destruct (main_step cfg w line s) as [[[[]|e] s1] tr1]; [|reflexivity].
  now rewrite IH.
Qed.

End HoldFacts.

(** X17. A tag held on the reader: the same line read any number of times,
    at least once, by a fresh manager, with requests that [send_tap]
    handles, and then the expiry of the manager's timer.  There is one
    tap-on, one notification and, at the expiry, one tap-off, all for the
    identifier of the line; the manager ends with no tag present. *)
Theorem held_tag_is_one_session
    (cfg : Config) (w0 : TapManager.world) (ws : list TapManager.world)
    (line : string) :
  starts_with_hex_pair line = true ->
  forallb (fun w => TapManager.handled (TapManager.post_result w)) (w0 :: ws)
  = true ->
  let id := byte_string_to_lens_id line in
  let x := TapManager.main_loop cfg (map (fun w => (w, line)) (w0 :: ws))
             (fst (TapManager.init cfg)) in
  exists h : nat,
    TapManager.tap_off_timer (TapManager.state_of x) = Some h
    /\ TapManager.result_of x = Ret tt
    /\ let y := TapManager.timer_fires cfg h (TapManager.state_of x) in
       TapManager.actions (TapManager.trace_of x ++ TapManager.trace_of y)
       = [TapManager.TapOn (Some id); TapManager.TapOff (Some id)]
       /\ TapManager.notified (TapManager.trace_of x ++ TapManager.trace_of y)
          = [Some id]
       /\ TapManager.last_id (TapManager.state_of y) = None.
Proof.
  intros Hgate Hh id x. cbn [forallb] in Hh.
  apply andb_true_iff in Hh as [Hh0 Hhs].
  set (s0 := fst (TapManager.init cfg)) in *.
  set (s1 := TapManager.state_of (TapManager.main_step cfg w0 line s0)).
  (* the first line *)
  assert (Hstep : TapManager.main_step cfg w0 line s0
                  = TapManager.read_line cfg w0 line s0).
  { now rewrite RunFacts.main_step_read_line, Hgate. }
  destruct (StepFacts.read_line_actions cfg w0 line s0) as [Ha1 Hn1].
  pose proof (OutcomeFacts.read_line_last_id cfg w0 line s0) as Hid1.
  pose proof (TapFacts.read_line_handled cfg w0 line s0 Hh0) as Hr1.
  rewrite <- Hstep in Ha1, Hn1, Hid1, Hr1. fold s1 in Hid1.
  change (TapManager._byte_string_to_lens_id s0 line) with id in *.
  assert (Hd0 : TapManager.id_differs id (TapManager.last_id s0) = true)
    by reflexivity.
  assert (Harm0 : System.session_armed s0 = false) by reflexivity.
  rewrite Hd0, Harm0 in Ha1. rewrite Hd0 in Hn1. cbn [app] in Ha1.
  (* the other lines *)
  destruct (LoopFacts.same_id_lines_silent cfg (map (fun w => (w, line)) ws)
              s1 id Hid1) as [Hr2 [Hn2 [Ha2 Hid2]]].
  { apply Forall_forall. intros [w l] Hin. apply list_elem_of_In in Hin.
    apply in_map_iff in Hin as [w' [[= _ <-] _]]. reflexivity. }
  assert (Hx : x = (TapManager.result_of
                      (TapManager.main_loop cfg (map (fun w => (w, line)) ws) s1),
                    TapManager.state_of
                      (TapManager.main_loop cfg (map (fun w => (w, line)) ws) s1),
                    TapManager.trace_of (TapManager.main_step cfg w0 line s0)
                    ++ TapManager.trace_of
                         (TapManager.main_loop cfg
                            (map (fun w => (w, line)) ws) s1))).
  { subst x. cbn [map]. rewrite EscapeFacts.main_loop_cons. now rewrite Hr1. }
  (* the state after the lines is consistent, so its timer is pending *)
  assert (Hcons : System.consistent (TapManager.state_of x)).
  { subst x. rewrite HoldFacts.main_loop_run.
    apply RunFacts.run_sessions; [|apply RunFacts.consistent_fresh].
    rewrite map_map. cbn [fst snd].
    apply forallb_forall. intros i Hin.
    apply in_map_iff in Hin as [w [<- Hw]]. cbn.
    destruct Hw as [<-|Hw]; [exact Hh0|].
    rewrite forallb_forall in Hhs. now apply Hhs. }
  rewrite Hx in *. cbn [TapManager.state_of TapManager.result_of
                         TapManager.trace_of fst snd] in *.
  unfold TapManager.state_of, TapManager.result_of, TapManager.trace_of in *.
  set (s2 := snd (fst (TapManager.main_loop cfg (map (fun w => (w, line)) ws) s1)))
    in *.
  destruct Hcons as [_ [Harm _]]. rewrite Hid2 in Harm.
  unfold System.session_armed in Harm.
  destruct (TapManager.tap_off_timer s2) as [h|] eqn:Ht; [|discriminate].
  exists h. split; [reflexivity|]. split; [exact Hr2|].
  destruct (InvariantFacts.timer_fires_taps_off cfg s2 h Harm)
    as [_ [Ha3 [Hn3 [Hid3 _]]]].
  unfold TapManager.state_of, TapManager.result_of, TapManager.trace_of in *.
  rewrite !TapFacts.actions_app, !TapFacts.notified_app.
  rewrite Ha1, Ha2, Ha3, Hn1, Hn2, Hn3, Hid2.
  repeat split. exact Hid3.
Qed.

Lemma held_tag_is_one_session_witness :
  exists h : nat,
    TapManager.tap_off_timer
      (TapManager.state_of
         (TapManager.main_loop default_config
            (map (fun w => (w, "04:AA:BB:CC:DD:EE:FF:01"))
                 [delivered; delivered; delivered])
            (fst (TapManager.init default_config))))
    = Some h.
Proof.
  destruct (held_tag_is_one_session default_config delivered
              [delivered; delivered] "04:AA:BB:CC:DD:EE:FF:01"
              eq_refl eq_refl) as [h [Hh _]].
  exists h. exact Hh.
Defined.

(** ** The failure indication *)

Module FailedFacts.
Import RampThread.




End FailedFacts.



(** The same run, evaluated: the first thread writes (31, 0, 0) and then
    the failure colour; the second starts from (31, 0, 0). *)
Example failed_trace :
  LedsManager.failed default_config
    {| LedsManager.thread := None; LedsManager.current_color := (0, 0, 0)%Z |}
    100 [(1003 # 10, false); (1007 # 10, false)]
  = ({| LedsManager.thread :=
          Some {| RampThread.current_color := (31, 0, 0)%Z;
                  RampThread.target_color := (130, 127, 127)%Z;
                  RampThread.duration_s := 6 # 10 |};
        LedsManager.current_color := (31, 0, 0)%Z |},
     [EvRampStart {| RampThread.current_color := (0, 0, 0)%Z;
                     RampThread.target_color := (255, 0, 0)%Z;
                     RampThread.duration_s := 6 # 10 |};
      EvSleep 1; EvRampStop; EvRampJoin;
      EvRampStart {| RampThread.current_color := (31, 0, 0)%Z;
                     RampThread.target_color := (130, 127, 127)%Z;
                     RampThread.duration_s := 6 # 10 |}]).
Proof. reflexivity. Qed.
